(** * Order placement and pricing engine of the food pre-order backend

    A shallow embedding of [place_order] (backend/app.py, route
    [POST /api/orders]) together with the tables it reads and writes, and
    the properties of the order-placement workflow: amounts, coupon
    handling, validation failures and the transactional write set.

    Modelling choices.
    - Amounts ([DECIMAL] columns, Python [Decimal]) are exact rationals [Q];
      [==] is equality of values (so [0.00] is zero, as Python's truth test
      of a [Decimal] has it).
    - Ids, quantities, counters and timestamps are integers [Z]. A request
      is a JSON body as the frontend sends it: every line has its
      [menu_item_id] and its [quantity], both integers. Bodies of another
      shape (a quantity that is not an integer, a line without one of its
      keys), which the handler answers from its [except Exception] clause,
      are outside the model; no statement below speaks about them.
    - A table is the list of its rows, [INSERT] appends a row. Columns the
      handler does not write ([order_date], set by the server) are left out.
    - The comparison [code = %s] of the coupon lookup is equality of
      strings.
    - The connection holds the committed tables and the working copy of the
      open transaction; [commit] publishes the working copy, [rollback]
      discards it; what other clients see is the committed part.
    - The environment of one request supplies the clock, the id the server
      gives to the inserted order ([cursor.lastrowid]) and which database
      call, if any, raises.
    - Every request opens a connection of its own. When two requests
      overlap, the [SELECT]s of each read the committed tables (a plain
      [SELECT] takes no lock), and the writes of each act on the rows as
      they are when it writes: an [INSERT] adds its row, and
      [UPDATE coupons SET uses_count = uses_count + 1] counts from the
      current value of the row. *)

From Stdlib Require Import ZArith QArith Qminmax Lqa Lia Ascii.
From stdpp Require Import base option list gmap strings.

Local Open Scope Z_scope.

(** ** Data model: the rows of the four tables *)

Record MenuItem := {
  mi_id : Z;
  mi_price : Q;
  mi_name : string;
  mi_is_available : bool
}.

Record Coupon := {
  c_id : Z;
  c_code : string;
  discount_percentage : option Q;
  discount_fixed : option Q;
  valid_until : option Z;
  uses_count : Z;
  max_uses : option Z;
  is_active : bool
}.

Record Order := {
  o_id : Z;
  o_student_id : Z;
  total_amount : Q;
  o_coupon_code : option string;
  discount_amount : Q;
  final_amount : Q;
  o_status : string
}.

Record OrderItem := {
  oi_order_id : Z;
  oi_menu_item_id : Z;
  oi_quantity : Z;
  price_at_order : Q
}.

Record Tables := {
  menu_items : list MenuItem;
  coupons : list Coupon;
  orders : list Order;
  order_items : list OrderItem
}.

(** ** The request and the response *)

(** One element of the JSON list [items]. *)
Record CartLine := {
  menu_item_id : Z;
  quantity : Z
}.

(** The JSON body: [data.get(...)] gives [None] for an absent key. An absent
    [items] behaves as the empty list (both are falsy). *)
Record Request := {
  student_id : option Z;
  items : list CartLine;
  coupon_code : option string
}.

(** The responses of the handler, one constructor per [return jsonify(...)]. *)
Inductive Response :=
| OrderPlaced (order_id : Z)
| MissingStudentOrItems
| DatabaseConnectionFailed
| NoItemsInOrder
| ItemNotFound (id : Z)
| ItemUnavailable (name : string)
| InvalidQuantity (id : Z)
| FailedToPlaceOrder
| UnexpectedError.

Definition status_code (r : Response) : Z :=
  match r with
  | OrderPlaced _ => 201
  | MissingStudentOrItems => 400
  | DatabaseConnectionFailed => 500
  | NoItemsInOrder => 400
  | ItemNotFound _ => 404
  | ItemUnavailable _ => 400
  | InvalidQuantity _ => 400
  | FailedToPlaceOrder => 500
  | UnexpectedError => 500
  end.

Definition is_placed (r : Response) : bool :=
  match r with OrderPlaced _ => true | _ => false end.

(** ** The environment of one request *)

(** The database calls made inside the [try] block, in program order. *)
Inductive stmt :=
| SelectMenuItems | SelectCoupon | InsertOrder | InsertOrderItems
| UpdateCoupon | Commit.

(** [mysql.connector.Error], or any other [Exception]. *)
Inductive exn := DbError | OtherException.

Record Env := {
  now : Z;
  lastrowid : Z;
  connect_ok : bool;
  raises : stmt -> option exn
}.

(** ** The connection and its transaction *)

Record Conn := {
  committed : Tables;
  working : Tables
}.

Inductive result (A : Type) :=
| Ok (a : A)
| Return (r : Response)
| Raise (e : exn).
Arguments Ok {A} a.
Arguments Return {A} r.
Arguments Raise {A} e.

Definition Txn (A : Type) : Type := Conn -> result A * Conn.

Definition ret {A} (a : A) : Txn A := fun c => (Ok a, c).

Definition bind {A B} (m : Txn A) (k : A -> Txn B) : Txn B :=
  fun c =>
    match m c with
    | (Ok a, c') => k a c'
    | (Return r, c') => (Return r, c')
    | (Raise e, c') => (Raise e, c')
    end.

Declare Scope txn_scope.
Delimit Scope txn_scope with txn.
Notation "x <- m ;; k" := (bind m (fun x => k))
  (at level 100, m at next level, right associativity) : txn_scope.
Notation "m ;;; k" := (bind m (fun _ => k))
  (at level 100, right associativity) : txn_scope.

(** [return jsonify(...)] from inside the [try] block. *)
Definition return_ {A} (r : Response) : Txn A := fun c => (Return r, c).

(** [cursor.execute]: the statement raises, or runs on the working copy. *)
Definition execute {A} (env : Env) (s : stmt) (run : Tables -> A * Tables) : Txn A :=
  fun c =>
    match raises env s with
    | Some e => (Raise e, c)
    | None =>
        let '(a, w) := run (working c) in
        (Ok a, {| committed := committed c; working := w |})
    end.

Definition commit (env : Env) : Txn unit :=
  fun c =>
    match raises env Commit with
    | Some e => (Raise e, c)
    | None => (Ok tt, {| committed := working c; working := working c |})
    end.

Definition rollback : Txn unit :=
  fun c => (Ok tt, {| committed := committed c; working := committed c |}).

(** ** The statements of [place_order] *)

(** [SELECT id, price, name, is_available FROM menu_items WHERE id IN (...)] *)
Definition select_menu_items (item_ids : list Z) (t : Tables) : list MenuItem :=
  List.filter (fun mi => bool_decide (mi_id mi ∈ item_ids)) (menu_items t).

(** [{item['id']: item for item in cursor.fetchall()}]: a later row replaces
    an earlier one with the same key. *)
Definition rows_by_id (rows : list MenuItem) : gmap Z MenuItem :=
  fold_left (fun m mi => <[mi_id mi := mi]> m) rows ∅.

(** [SELECT ... FROM coupons WHERE code = %s AND is_active = TRUE] *)
Definition select_coupon (code : string) (t : Tables) : list Coupon :=
  List.filter (fun c => String.eqb (c_code c) code && is_active c) (coupons t).

Definition fetchone {A} (rows : list A) : option A := head rows.

(** [INSERT INTO orders (student_id, total_amount, coupon_code,
    discount_amount, final_amount, status) VALUES (..., 'Pending')] *)
Definition insert_order (o : Order) (t : Tables) : Tables :=
  {| menu_items := menu_items t; coupons := coupons t;
     orders := orders t ++ [o]; order_items := order_items t |}.

(** [cursor.executemany(order_items_sql, order_items_values)] *)
Definition insert_order_items (rows : list OrderItem) (t : Tables) : Tables :=
  {| menu_items := menu_items t; coupons := coupons t;
     orders := orders t; order_items := order_items t ++ rows |}.

Definition use_once (c : Coupon) : Coupon :=
  {| c_id := c_id c; c_code := c_code c;
     discount_percentage := discount_percentage c;
     discount_fixed := discount_fixed c;
     valid_until := valid_until c;
     uses_count := uses_count c + 1;
     max_uses := max_uses c; is_active := is_active c |}.

(** [UPDATE coupons SET uses_count = uses_count + 1 WHERE id = %s] *)
Definition increment_uses (id : Z) (cs : list Coupon) : list Coupon :=
  map (fun c => if c_id c =? id then use_once c else c) cs.

Definition update_coupon (id : Z) (t : Tables) : Tables :=
  {| menu_items := menu_items t; coupons := increment_uses id (coupons t);
     orders := orders t; order_items := order_items t |}.

(** ** Python truth tests *)

Definition truthy_id (x : option Z) : bool :=
  match x with Some z => negb (z =? 0) | None => false end.

Definition truthy_str (x : option string) : bool :=
  match x with Some EmptyString => false | Some _ => true | None => false end.

Definition truthy_dec (x : option Q) : bool :=
  match x with Some q => negb (Qeq_bool q 0) | None => false end.

Definition dec_value (x : option Q) : Q :=
  match x with Some q => q | None => 0%Q end.

(** ** Step 1 of the handler: validate the lines and add up the total *)

(** An element of [order_items_data]. *)
Record OrderItemData := {
  d_menu_item_id : Z;
  d_quantity : Z;
  d_price_at_order : Q
}.

(** The [for item in items] loop, with its two accumulators; [inl] is the
    response of the [return] that leaves the loop. *)
Fixpoint validate_items (menu_items_db : gmap Z MenuItem) (its : list CartLine)
    (total_amount : Q) (order_items_data : list OrderItemData)
    : Response + (Q * list OrderItemData) :=
  match its with
  | [] => inr (total_amount, order_items_data)
  | item :: rest =>
      match menu_items_db !! menu_item_id item with
      | None => inl (ItemNotFound (menu_item_id item))
      | Some db_item =>
          if negb (mi_is_available db_item)
          then inl (ItemUnavailable (mi_name db_item))
          else if quantity item <=? 0
          then inl (InvalidQuantity (menu_item_id item))
          else
            let price := mi_price db_item in
            let item_total := (price * inject_Z (quantity item))%Q in
            validate_items menu_items_db rest (total_amount + item_total)%Q
              (order_items_data ++
                 [{| d_menu_item_id := menu_item_id item;
                     d_quantity := quantity item;
                     d_price_at_order := price |}])
      end
  end.

(** ** Step 2 of the handler: the coupon *)

(** The [valid] flag. *)
Definition coupon_valid (now : Z) (coupon : option Coupon) : bool :=
  match coupon with
  | Some c =>
      match valid_until c with None => true | Some t => now <? t end
      && match max_uses c with None => true | Some m => uses_count c <? m end
  | None => false
  end.

(** The body of [if valid:]; [discount_amount] is [0] when neither branch
    is taken. *)
Definition coupon_discount (total_amount : Q) (c : Coupon) : Q :=
  if truthy_dec (discount_percentage c)
  then (total_amount * (dec_value (discount_percentage c) / 100))%Q
  else if truthy_dec (discount_fixed c)
  then Qmin total_amount (dec_value (discount_fixed c))
  else 0%Q.

(** What the coupon block leaves in [coupon_code], [discount_amount] and,
    when [valid] holds, [coupon]. *)
Record CouponOutcome := {
  co_coupon_code : option string;
  co_discount_amount : Q;
  co_applied : option Coupon
}.

Definition apply_coupon (env : Env) (coupon_code : option string)
    (total_amount : Q) : Txn CouponOutcome :=
  match coupon_code with
  | Some code =>
      if truthy_str coupon_code then
        (coupon <- execute env SelectCoupon
                     (fun t => (fetchone (select_coupon code t), t)) ;;
         if coupon_valid (now env) coupon then
           match coupon with
           | Some c =>
               ret {| co_coupon_code := coupon_code;
                      co_discount_amount := coupon_discount total_amount c;
                      co_applied := Some c |}
           | None =>
               ret {| co_coupon_code := None; co_discount_amount := 0%Q;
                      co_applied := None |}
           end
         else
           ret {| co_coupon_code := None; co_discount_amount := 0%Q;
                  co_applied := None |})%txn
      else
        ret {| co_coupon_code := coupon_code; co_discount_amount := 0%Q;
               co_applied := None |}
  | None =>
      ret {| co_coupon_code := None; co_discount_amount := 0%Q;
             co_applied := None |}
  end.

(** ** Steps 3 to 5 and the whole handler *)

Definition order_item_row (order_id : Z) (d : OrderItemData) : OrderItem :=
  {| oi_order_id := order_id; oi_menu_item_id := d_menu_item_id d;
     oi_quantity := d_quantity d; price_at_order := d_price_at_order d |}.

Definition Pending : string := "Pending".

(** The [try] block. *)
Definition place_order_try (env : Env) (sid : Z) (req : Request) : Txn Response :=
  (let item_ids := map menu_item_id (items req) in
   if bool_decide (item_ids = []) then return_ NoItemsInOrder else
   rows <- execute env SelectMenuItems
             (fun t => (select_menu_items item_ids t, t)) ;;
   let menu_items_db := rows_by_id rows in
   match validate_items menu_items_db (items req) 0%Q [] with
   | inl resp => rollback ;;; return_ resp
   | inr (total, order_items_data) =>
       co <- apply_coupon env (coupon_code req) total ;;
       let final := (total - co_discount_amount co)%Q in
       let order_id := lastrowid env in
       execute env InsertOrder
         (fun t => (tt, insert_order
                          {| o_id := order_id; o_student_id := sid;
                             total_amount := total;
                             o_coupon_code := co_coupon_code co;
                             discount_amount := co_discount_amount co;
                             final_amount := final;
                             o_status := Pending |} t)) ;;;
       execute env InsertOrderItems
         (fun t => (tt, insert_order_items
                          (map (order_item_row order_id) order_items_data) t)) ;;;
       (match co_applied co with
        | Some c =>
            if truthy_str (co_coupon_code co)
            then execute env UpdateCoupon (fun t => (tt, update_coupon (c_id c) t))
            else ret tt
        | None => ret tt
        end) ;;;
       commit env ;;;
       return_ (OrderPlaced order_id)
   end)%txn.

(** The two [except] clauses. *)
Definition try_except (body : Txn Response) (c : Conn) : Response * Conn :=
  match body c with
  | (Ok r, c') => (r, c')
  | (Return r, c') => (r, c')
  | (Raise DbError, c') => (FailedToPlaceOrder, snd (rollback c'))
  | (Raise OtherException, c') => (UnexpectedError, snd (rollback c'))
  end.

(** The handler: the response, and the tables as committed when the
    connection is closed. *)
Definition place_order (env : Env) (db : Tables) (req : Request) : Response * Tables :=
  match student_id req with
  | Some sid =>
      if negb (truthy_id (student_id req)) || bool_decide (items req = [])
      then (MissingStudentOrItems, db)
      else if negb (connect_ok env) then (DatabaseConnectionFailed, db)
      else
        let '(r, c) := try_except (place_order_try env sid req)
                         {| committed := db; working := db |} in
        (r, committed c)
  | None => (MissingStudentOrItems, db)
  end.

(** ** Derived views used by the statements *)

(** The dictionary [menu_items_db] the handler builds for a request. *)
Definition menu_items_db (db : Tables) (req : Request) : gmap Z MenuItem :=
  rows_by_id (select_menu_items (map menu_item_id (items req)) db).

(** A line that passes the three checks of the loop. *)
Definition line_ok (m : gmap Z MenuItem) (l : CartLine) : Prop :=
  ∃ mi, m !! menu_item_id l = Some mi ∧ mi_is_available mi = true ∧ 0 < quantity l.

(** The entry the loop appends for a line. *)
Definition line_priced (m : gmap Z MenuItem) (l : CartLine) (d : OrderItemData) : Prop :=
  d_menu_item_id d = menu_item_id l ∧ d_quantity d = quantity l ∧
  ∃ mi, m !! menu_item_id l = Some mi ∧ mi_is_available mi = true ∧
        0 < quantity l ∧ d_price_at_order d = mi_price mi.

Definition sum_data (ds : list OrderItemData) : Q :=
  fold_right (fun d acc => (d_price_at_order d * inject_Z (d_quantity d) + acc)%Q) 0%Q ds.

(** Sum of [price_at_order × quantity] over order lines. *)
Definition lines_total (rows : list OrderItem) : Q :=
  fold_right (fun r acc => (price_at_order r * inject_Z (oi_quantity r) + acc)%Q) 0%Q rows.

(** The coupon block when [SELECT] does not raise. *)
Definition coupon_outcome (now : Z) (coupon_code : option string)
    (total : Q) (t : Tables) : CouponOutcome :=
  match coupon_code with
  | Some code =>
      if truthy_str coupon_code then
        match fetchone (select_coupon code t) with
        | Some c =>
            if coupon_valid now (Some c)
            then {| co_coupon_code := coupon_code;
                    co_discount_amount := coupon_discount total c;
                    co_applied := Some c |}
            else {| co_coupon_code := None; co_discount_amount := 0%Q;
                    co_applied := None |}
        | None => {| co_coupon_code := None; co_discount_amount := 0%Q;
                     co_applied := None |}
        end
      else {| co_coupon_code := coupon_code; co_discount_amount := 0%Q;
              co_applied := None |}
  | None => {| co_coupon_code := None; co_discount_amount := 0%Q;
               co_applied := None |}
  end.

(** The header row of a placed order. *)
Definition order_row (oid sid : Z) (total : Q) (co : CouponOutcome) : Order :=
  {| o_id := oid; o_student_id := sid; total_amount := total;
     o_coupon_code := co_coupon_code co;
     discount_amount := co_discount_amount co;
     final_amount := (total - co_discount_amount co)%Q;
     o_status := Pending |}.

(** The tables after a committed order. *)
Definition tables_after (db : Tables) (o : Order) (rows : list OrderItem)
    (applied : option Coupon) : Tables :=
  {| menu_items := menu_items db;
     coupons := match applied with
                | Some c => increment_uses (c_id c) (coupons db)
                | None => coupons db
                end;
     orders := orders db ++ [o];
     order_items := order_items db ++ rows |}.

Definition no_faults (env : Env) : Prop :=
  connect_ok env = true ∧ ∀ s, raises env s = None.

(** The data-model ranges of the catalog and of the coupons. *)
Definition prices_nonneg (db : Tables) : Prop :=
  Forall (fun mi => (0 <= mi_price mi)%Q) (menu_items db).

Definition coupon_in_range (c : Coupon) : Prop :=
  (∀ p, discount_percentage c = Some p → (0 <= p)%Q ∧ (p <= 100)%Q) ∧
  (∀ f, discount_fixed c = Some f → (0 <= f)%Q).

Definition coupons_in_range (db : Tables) : Prop :=
  Forall coupon_in_range (coupons db).

(** At most one of the two discount fields is set. *)
Definition one_discount_kind (c : Coupon) : Prop :=
  discount_percentage c = None ∨ discount_fixed c = None.

(** ** Notions used by the statements, continued *)

(** The tables a successful run commits. *)
Definition committed_order (env : Env) (db : Tables) (req : Request)
    (sid : Z) (total : Q) (data : list OrderItemData) : Tables :=
  let co := coupon_outcome (now env) (coupon_code req) total db in
  tables_after db (order_row (lastrowid env) sid total co)
    (map (order_item_row (lastrowid env)) data) (co_applied co).

Local Ltac nothing_persisted H :=
  left; cbn in H; injection H as <- <-; split; reflexivity.

(** The validity condition of a coupon row, as a proposition. *)
Definition usable (now : Z) (c : Coupon) : Prop :=
  is_active c = true ∧
  (valid_until c = None ∨ ∃ t, valid_until c = Some t ∧ now < t) ∧
  (max_uses c = None ∨ ∃ m, max_uses c = Some m ∧ uses_count c < m).

(** Every coupon with a ceiling is within it. *)
Definition within_max (t : Tables) : Prop :=
  ∀ c m, c ∈ coupons t → max_uses c = Some m → uses_count c ≤ m.

(** The requests of a list, each served to its end before the next starts. *)
Fixpoint serve (db : Tables) (calls : list (Env * Request)) : Tables :=
  match calls with
  | [] => db
  | (env, req) :: rest => serve (snd (place_order env db req)) rest
  end.

(** ** A small canteen, used to run the handler on concrete requests *)

Definition quiet : Env :=
  {| now := 100; lastrowid := 7; connect_ok := true; raises := fun _ => None |}.

Definition coupon_done : Coupon :=
  {| c_id := 4; c_code := "DONE"; discount_percentage := Some (10 # 1);
     discount_fixed := None; valid_until := None; uses_count := 1;
     max_uses := Some 1; is_active := true |}.

Definition canteen : Tables :=
  {| menu_items :=
       [ {| mi_id := 1; mi_price := 100 # 1; mi_name := "Thali"; mi_is_available := true |};
         {| mi_id := 2; mi_price := 5 # 2; mi_name := "Bun"; mi_is_available := false |};
         {| mi_id := 3; mi_price := 30 # 1; mi_name := "Tea"; mi_is_available := true |} ];
     coupons :=
       [ {| c_id := 1; c_code := "TEN"; discount_percentage := Some (10 # 1);
            discount_fixed := None; valid_until := None; uses_count := 0;
            max_uses := Some 5; is_active := true |};
         {| c_id := 2; c_code := "FIFTY"; discount_percentage := None;
            discount_fixed := Some (50 # 1); valid_until := Some 200;
            uses_count := 3; max_uses := None; is_active := true |};
         {| c_id := 3; c_code := "OLD"; discount_percentage := Some (10 # 1);
            discount_fixed := None; valid_until := Some 50; uses_count := 0;
            max_uses := None; is_active := true |};
         coupon_done;
         {| c_id := 5; c_code := "OFF"; discount_percentage := Some (20 # 1);
            discount_fixed := None; valid_until := None; uses_count := 0;
            max_uses := None; is_active := false |} ];
     orders := [];
     order_items := [] |}.

(** A request of student 3. *)
Definition cart (lines : list (Z * Z)) (code : option string) : Request :=
  {| student_id := Some 3;
     items := map (fun '(i, q) => {| menu_item_id := i; quantity := q |}) lines;
     coupon_code := code |}.

Definition lunch : Request := cart [(1, 2); (3, 1)] (Some "TEN"%string).

(** ** What justifies each response of [place_order] *)

(** The cause a response reports, read off the [return] that produces it. *)
Definition response_cause (env : Env) (db : Tables) (req : Request)
    (r : Response) : Prop :=
  match r with
  | OrderPlaced oid =>
      oid = lastrowid env ∧ connect_ok env = true ∧
      truthy_id (student_id req) = true ∧ items req ≠ [] ∧
      Forall (line_ok (menu_items_db db req)) (items req) ∧
      raises env SelectMenuItems = None ∧ raises env InsertOrder = None ∧
      raises env InsertOrderItems = None ∧ raises env Commit = None
  | MissingStudentOrItems =>
      truthy_id (student_id req) = false ∨ items req = []
  | DatabaseConnectionFailed => connect_ok env = false
  | NoItemsInOrder => False
  | ItemNotFound id =>
      ∃ l, l ∈ items req ∧ menu_item_id l = id ∧
           menu_items_db db req !! id = None
  | ItemUnavailable name =>
      ∃ l mi, l ∈ items req ∧
              menu_items_db db req !! menu_item_id l = Some mi ∧
              mi_is_available mi = false ∧ mi_name mi = name
  | InvalidQuantity id =>
      ∃ l mi, l ∈ items req ∧ menu_item_id l = id ∧
              menu_items_db db req !! id = Some mi ∧
              mi_is_available mi = true ∧ quantity l ≤ 0
  | FailedToPlaceOrder => ∃ s, raises env s = Some DbError
  | UnexpectedError => ∃ s, raises env s = Some OtherException
  end.

(** One coupon row before and after a request: the same row, or the same row
    used once more. *)
Definition coupon_step (c c' : Coupon) : Prop :=
  c' = c ∨ c' = use_once c.

(** ** [allowed_file]: the extension test of uploaded images *)

(** [c.lower()] on the letters A to Z; any other character is left as it is
    (no character outside A to Z lowers to a letter of the four
    extensions). *)
Definition lower_char (c : ascii) : ascii :=
  let n := nat_of_ascii c in
  if (65 <=? n)%nat && (n <=? 90)%nat then ascii_of_nat (n + 32) else c.

Fixpoint lower (s : string) : string :=
  match s with
  | EmptyString => EmptyString
  | String c rest => String (lower_char c) (lower rest)
  end.

Definition dot : ascii := "."%char.

(** ['.' in filename] *)
Fixpoint has_dot (s : string) : bool :=
  match s with
  | EmptyString => false
  | String c rest => Ascii.eqb c dot || has_dot rest
  end.

(** [filename.rsplit('.', 1)[1]]: what follows the last dot; [None] when
    there is no dot (the list has one element and the index is out of
    range). *)
Fixpoint after_last_dot (s : string) : option string :=
  match s with
  | EmptyString => None
  | String c rest =>
      match after_last_dot rest with
      | Some ext => Some ext
      | None => if Ascii.eqb c dot then Some rest else None
      end
  end.

Definition ALLOWED_EXTENSIONS : list string :=
  ["png"; "jpg"; "jpeg"; "gif"]%string.

Definition allowed_file (filename : string) : bool :=
  has_dot filename &&
  match after_last_dot filename with
  | Some ext => bool_decide (lower ext ∈ ALLOWED_EXTENSIONS)
  | None => false
  end.

(** ** The one-statement handlers: order status and coupon deletion *)

(** What the database does during one of these requests: whether the
    connection opens, whether the statement or the commit raises
    [mysql.connector.Error], and whether [cursor.rowcount] of an [UPDATE]
    counts the rows matched (the client flag [FOUND_ROWS]) or the rows
    changed. *)
Record Server := {
  srv_connect_ok : bool;
  srv_execute_raises : bool;
  srv_commit_raises : bool;
  srv_found_rows : bool
}.

Definition valid_statuses : list string :=
  ["Pending"; "Preparing"; "Ready for Pickup"; "Completed"; "Cancelled"]%string.

Inductive StatusResponse :=
| StatusUpdated (order_id : Z) (new_status : string)
| InvalidStatus
| StatusConnectionFailed
| OrderNotFound
| StatusUpdateFailed.

Definition status_response_code (r : StatusResponse) : Z :=
  match r with
  | StatusUpdated _ _ => 200
  | InvalidStatus => 400
  | StatusConnectionFailed => 500
  | OrderNotFound => 404
  | StatusUpdateFailed => 500
  end.

Definition set_status (new_status : string) (o : Order) : Order :=
  {| o_id := o_id o; o_student_id := o_student_id o;
     total_amount := total_amount o; o_coupon_code := o_coupon_code o;
     discount_amount := discount_amount o; final_amount := final_amount o;
     o_status := new_status |}.

(** [UPDATE orders SET status = %s WHERE id = %s] *)
Definition update_status_rows (new_status : string) (order_id : Z)
    (os : list Order) : list Order :=
  map (fun o => if o_id o =? order_id then set_status new_status o else o) os.

(** [cursor.rowcount] after that [UPDATE]. *)
Definition status_rowcount (found_rows : bool) (new_status : string)
    (order_id : Z) (os : list Order) : nat :=
  length (List.filter
            (fun o => (o_id o =? order_id) &&
                      (found_rows || negb (String.eqb (o_status o) new_status)))
            os).

Definition with_orders (os : list Order) (t : Tables) : Tables :=
  {| menu_items := menu_items t; coupons := coupons t;
     orders := os; order_items := order_items t |}.

(** [PUT /api/orders/<order_id>/status]; [status] is [data.get('status')]. *)
Definition update_order_status (srv : Server) (db : Tables) (order_id : Z)
    (status : option string) : StatusResponse * Tables :=
  match status with
  | Some new_status =>
      if negb (truthy_str status)
         || negb (bool_decide (new_status ∈ valid_statuses))
      then (InvalidStatus, db)
      else if negb (srv_connect_ok srv) then (StatusConnectionFailed, db)
      else if srv_execute_raises srv then (StatusUpdateFailed, db)
      else if srv_commit_raises srv then (StatusUpdateFailed, db)
      else
        let db' := with_orders (update_status_rows new_status order_id (orders db)) db in
        if Nat.eqb (status_rowcount (srv_found_rows srv) new_status order_id (orders db)) 0
        then (OrderNotFound, db')
        else (StatusUpdated order_id new_status, db')
  | None => (InvalidStatus, db)
  end.

Inductive CouponResponse :=
| CouponDeleted
| CouponNotFound
| CouponConnectionFailed
| CouponDeleteFailed.

(** [DELETE FROM coupons WHERE id = %s] *)
Definition delete_coupon_rows (coupon_id : Z) (cs : list Coupon) : list Coupon :=
  List.filter (fun c => negb (c_id c =? coupon_id)) cs.

Definition with_coupons (cs : list Coupon) (t : Tables) : Tables :=
  {| menu_items := menu_items t; coupons := cs;
     orders := orders t; order_items := order_items t |}.

(** [DELETE /api/coupons/<coupon_id>] *)
Definition delete_coupon (srv : Server) (db : Tables) (coupon_id : Z)
    : CouponResponse * Tables :=
  if negb (srv_connect_ok srv) then (CouponConnectionFailed, db)
  else if srv_execute_raises srv then (CouponDeleteFailed, db)
  else if srv_commit_raises srv then (CouponDeleteFailed, db)
  else
    let cs := delete_coupon_rows coupon_id (coupons db) in
    if Nat.eqb (length (coupons db) - length cs) 0
    then (CouponNotFound, with_coupons cs db)
    else (CouponDeleted, with_coupons cs db).

(** Every order header carries one of the five statuses. *)
Definition statuses_valid (t : Tables) : Prop :=
  Forall (fun o => o_status o ∈ valid_statuses) (orders t).

(** Every order header has [final_amount = total_amount - discount_amount]. *)
Definition finals_consistent (t : Tables) : Prop :=
  Forall (fun o => final_amount o = (total_amount o - discount_amount o)%Q) (orders t).

(** A header before and after a change of status: all other columns equal. *)
Definition same_but_status (o o' : Order) : Prop :=
  o_id o' = o_id o ∧ o_student_id o' = o_student_id o ∧
  total_amount o' = total_amount o ∧ o_coupon_code o' = o_coupon_code o ∧
  discount_amount o' = discount_amount o ∧ final_amount o' = final_amount o.

(** A database that answers every call, with [rowcount] counting the rows
    changed. *)
Definition calm : Server :=
  {| srv_connect_ok := true; srv_execute_raises := false;
     srv_commit_raises := false; srv_found_rows := false |}.

Definition srv_no_faults (srv : Server) : Prop :=
  srv_connect_ok srv = true ∧ srv_execute_raises srv = false ∧
  srv_commit_raises srv = false.

(** The canteen after the order [lunch] was placed. *)
Definition canteen_after_lunch : Tables := snd (place_order quiet canteen lunch).

(** ** Requests to the three handlers, served one after the other *)

Inductive Call :=
| PlaceOrder (env : Env) (req : Request)
| UpdateOrderStatus (srv : Server) (order_id : Z) (status : option string)
| DeleteCoupon (srv : Server) (coupon_id : Z).

Definition step (db : Tables) (call : Call) : Tables :=
  match call with
  | PlaceOrder env req => snd (place_order env db req)
  | UpdateOrderStatus srv order_id status =>
      snd (update_order_status srv db order_id status)
  | DeleteCoupon srv coupon_id => snd (delete_coupon srv db coupon_id)
  end.

Definition run (db : Tables) (calls : list Call) : Tables :=
  fold_left step calls db.

(** Every order header has an order line, and every order line a header. *)
Definition headers_have_lines (t : Tables) : Prop :=
  ∀ o, o ∈ orders t → ∃ row, row ∈ order_items t ∧ oi_order_id row = o_id o.

Definition lines_have_headers (t : Tables) : Prop :=
  ∀ row, row ∈ order_items t → ∃ o, o ∈ orders t ∧ o_id o = oi_order_id row.

(** ** [get_orders]: the order list with its joined lines *)

(** A row of [users]. *)
Record User := {
  u_id : Z;
  u_username : string;
  u_password_hash : string;
  u_role : string
}.

(** An element of [order['items']]. *)
Record OrderItemView := {
  v_quantity : Z;
  v_price_at_order : Q;
  v_item_name : string
}.

(** An element of the JSON list the handler returns ([order_date], a column
    the handlers modelled here do not write, is left out). *)
Record OrderView := {
  ov_id : Z;
  ov_student_id : Z;
  ov_student_username : string;
  ov_total_amount : Q;
  ov_status : string;
  ov_coupon_code : option string;
  ov_discount_amount : Q;
  ov_final_amount : Q;
  ov_items : list OrderItemView
}.

(** [SELECT oi.quantity, oi.price_at_order, mi.name as item_name
     FROM order_items oi JOIN menu_items mi ON oi.menu_item_id = mi.id
     WHERE oi.order_id = %s] *)
Definition select_order_items (db : Tables) (order_id : Z) : list OrderItemView :=
  flat_map
    (fun oi =>
       if oi_order_id oi =? order_id then
         map (fun mi => {| v_quantity := oi_quantity oi;
                           v_price_at_order := price_at_order oi;
                           v_item_name := mi_name mi |})
             (List.filter (fun mi => mi_id mi =? oi_menu_item_id oi) (menu_items db))
       else [])
    (order_items db).

(** [SELECT ... FROM orders o JOIN users u ON o.student_id = u.id
     [WHERE o.student_id = %s]], each row with its items. The rows are given
    in table order: the [ORDER BY o.order_date DESC] is not modelled, and
    the statements below do not depend on the order of the rows. *)
Definition select_orders (users : list User) (db : Tables)
    (student_id : option Z) : list OrderView :=
  flat_map
    (fun o =>
       if match student_id with
          | Some s => o_student_id o =? s
          | None => true
          end
       then
         map (fun u => {| ov_id := o_id o; ov_student_id := o_student_id o;
                          ov_student_username := u_username u;
                          ov_total_amount := total_amount o;
                          ov_status := o_status o;
                          ov_coupon_code := o_coupon_code o;
                          ov_discount_amount := discount_amount o;
                          ov_final_amount := final_amount o;
                          ov_items := select_order_items db (o_id o) |})
             (List.filter (fun u => u_id u =? o_student_id o) users)
       else [])
    (orders db).

(** [GET /api/orders]; [student_id] is the query parameter as the server
    reads it in the comparison with the integer column, [None] when the
    parameter is absent or empty ([if student_id:] is false). [None] as a
    result is the 500 response. *)
Definition get_orders (srv : Server) (users : list User) (db : Tables)
    (student_id : option Z) : option (list OrderView) :=
  if negb (srv_connect_ok srv) then None
  else if srv_execute_raises srv then None
  else Some (select_orders users db student_id).

(** [get_orders_api] of the frontend: the parameter is sent only
    [if student_id:]. *)
Definition get_orders_api_params (student_id : option Z) : option Z :=
  if truthy_id student_id then student_id else None.

(** The view of one cart line in the order list. *)
Definition line_view (l : CartLine) (mi : MenuItem) : OrderItemView :=
  {| v_quantity := quantity l; v_price_at_order := mi_price mi;
     v_item_name := mi_name mi |}.

Definition student : User :=
  {| u_id := 3; u_username := "asha"; u_password_hash := "x"; u_role := "student" |}.

(** The canteen after [lunch], with the price of the first item raised. *)
Definition canteen_after_price_rise : Tables :=
  {| menu_items :=
       [ {| mi_id := 1; mi_price := 120 # 1; mi_name := "Thali"; mi_is_available := true |};
         {| mi_id := 2; mi_price := 5 # 2; mi_name := "Bun"; mi_is_available := true |};
         {| mi_id := 3; mi_price := 30 # 1; mi_name := "Tea"; mi_is_available := false |} ];
     coupons := coupons canteen_after_lunch;
     orders := orders canteen_after_lunch;
     order_items := order_items canteen_after_lunch |}.

(** One cart line as the order list shows it. *)
Definition shown_as (db : Tables) (l : CartLine) (iv : OrderItemView) : Prop :=
  v_quantity iv = quantity l ∧
  ∃ mi, mi ∈ menu_items db ∧ mi_id mi = menu_item_id l ∧
        v_price_at_order iv = mi_price mi ∧ v_item_name iv = mi_name mi.

(** ** The student's cart in the frontend *)

(** A value of the [cart] dictionary. The price is the one shown in the cart
    (the catalog price at the time of the first click, as a float there);
    it is never sent to the backend. *)
Record CartEntry := {
  ce_name : string;
  ce_price : Q;
  ce_quantity : Z
}.

(** [st.session_state['cart']]: a dictionary, in insertion order. *)
Definition in_cart (item_id : Z) (cart : list (Z * CartEntry)) : bool :=
  existsb (fun kd => fst kd =? item_id) cart.

Definition one_more (d : CartEntry) : CartEntry :=
  {| ce_name := ce_name d; ce_price := ce_price d;
     ce_quantity := ce_quantity d + 1 |}.

(** [add_to_cart(item_id, item_details)] *)
Definition add_to_cart (cart : list (Z * CartEntry)) (item_id : Z)
    (item_details : MenuItem) : list (Z * CartEntry) :=
  if in_cart item_id cart then
    map (fun kd => if fst kd =? item_id then (fst kd, one_more (snd kd)) else kd) cart
  else
    cart ++ [(item_id, {| ce_name := mi_name item_details;
                          ce_price := mi_price item_details;
                          ce_quantity := 1 |})].

(** The cart after the clicks on "Add to Cart" for the given menu rows, one
    click after the other, starting from the empty cart of a login. *)
Definition cart_after (clicks : list MenuItem) : list (Z * CartEntry) :=
  fold_left (fun cart item => add_to_cart cart (mi_id item) item) clicks [].

(** [items_payload] of the cart tab. *)
Definition items_payload (cart : list (Z * CartEntry)) : list CartLine :=
  map (fun kd => {| menu_item_id := fst kd; quantity := ce_quantity (snd kd) |}) cart.

(** [place_order_api]: the JSON body; [coupon_code] is a key of the body
    only [if coupon_code:]. *)
Definition place_order_api (sid : Z) (its : list CartLine)
    (code : option string) : Request :=
  {| student_id := Some sid; items := its;
     coupon_code := if truthy_str code then code else None |}.

(** What happens to a request on its way: answered, lost before the backend
    saw it, or served by the backend with the answer lost (connection
    error or timeout in [api_request]). *)
Inductive Net := Delivered | RequestLost | ResponseLost.

(** [api_request('post', 'orders', json=payload)]: the [order_id] of the
    JSON answer; [None] for a 4xx or 5xx answer ([raise_for_status]) and
    for a lost request or answer. *)
Definition post_order (net : Net) (env : Env) (db : Tables) (req : Request)
    : option Z * Tables :=
  match net with
  | RequestLost => (None, db)
  | ResponseLost => (None, snd (place_order env db req))
  | Delivered =>
      let '(r, db') := place_order env db req in
      (match r with
       | OrderPlaced oid => if status_code r <? 400 then Some oid else None
       | _ => None
       end, db')
  end.

(** The "Place Order" button of the cart tab; [coupon_text] is the text
    input. The result is the cart of the session and the tables. *)
Definition click_place_order (net : Net) (env : Env) (db : Tables) (sid : Z)
    (cart : list (Z * CartEntry)) (coupon_text : string)
    : list (Z * CartEntry) * Tables :=
  if bool_decide (cart = []) then (cart, db)
  else if bool_decide (items_payload cart = []) then (cart, db)
  else
    let code := if truthy_str (Some coupon_text) then Some coupon_text else None in
    let '(response, db') :=
      post_order net env db (place_order_api sid (items_payload cart) code) in
    match response with
    | Some oid => if negb (oid =? 0) then ([], db') else (cart, db')
    | None => (cart, db')
    end.

(** The number of clicks on the item with the given id. *)
Definition clicks_on (item_id : Z) (clicks : list MenuItem) : Z :=
  Z.of_nat (length (List.filter (fun item => mi_id item =? item_id) clicks)).

(** The quantity the cart holds for an id, [0] if the id is not a key. *)
Definition cart_quantity (item_id : Z) (cart : list (Z * CartEntry)) : Z :=
  match List.find (fun kd => fst kd =? item_id) cart with
  | Some kd => ce_quantity (snd kd)
  | None => 0
  end.

(** The keys of the dictionary are distinct and every quantity is at least 1. *)
Definition cart_ok (cart : list (Z * CartEntry)) : Prop :=
  NoDup (map fst cart) ∧ Forall (fun kd => 1 ≤ ce_quantity (snd kd)) cart.

(** One entry of the cart as an order line of the order with the given id:
    the entry's item and quantity, at the price of the catalog. *)
Definition entry_ordered (db : Tables) (oid : Z) (kd : Z * CartEntry)
    (row : OrderItem) : Prop :=
  oi_order_id row = oid ∧ oi_menu_item_id row = fst kd ∧
  oi_quantity row = ce_quantity (snd kd) ∧
  ∃ mi, mi ∈ menu_items db ∧ mi_id mi = fst kd ∧
        price_at_order row = mi_price mi.

(** Two clicks on the first item and one on the third. *)
Definition three_clicks : list MenuItem :=
  [ {| mi_id := 1; mi_price := 100 # 1; mi_name := "Thali"; mi_is_available := true |};
    {| mi_id := 3; mi_price := 30 # 1; mi_name := "Tea"; mi_is_available := true |};
    {| mi_id := 1; mi_price := 100 # 1; mi_name := "Thali"; mi_is_available := true |} ].

(** ** Registration and login *)

(** What the database does during a registration or a login: whether the
    connection opens, which call raises [mysql.connector.Error], and the id
    it gives to an inserted user. *)
Record Accounts := {
  acc_connect_ok : bool;
  acc_select_raises : bool;
  acc_insert_raises : bool;
  acc_commit_raises : bool;
  acc_lastrowid : Z
}.

(** The JSON body of [/api/register] and [/api/login]. *)
Record Credentials := {
  cr_username : option string;
  cr_password : option string;
  cr_role : option string
}.

Inductive RegisterResponse :=
| Registered (user_id : Z)
| MissingFields
| InvalidRole
| RegisterConnectionFailed
| UsernameExists
| RegistrationFailed.

Definition roles : list string := ["student"; "canteen"]%string.

(** [SELECT ... FROM users WHERE username = %s] *)
Definition select_user (username : string) (users : list User) : list User :=
  List.filter (fun u => String.eqb (u_username u) username) users.

(** [POST /api/register]. [hash_password] is the salted hash of passlib,
    taken as a parameter: the function from passwords to hashes that this
    call computes. *)
Definition register (hash_password : string → string) (srv : Accounts)
    (users : list User) (data : Credentials) : RegisterResponse * list User :=
  match cr_username data, cr_password data, cr_role data with
  | Some username, Some password, Some role =>
      if negb (truthy_str (cr_username data)) || negb (truthy_str (cr_password data))
         || negb (truthy_str (cr_role data))
      then (MissingFields, users)
      else if negb (bool_decide (role ∈ roles)) then (InvalidRole, users)
      else
        let hashed_password := hash_password password in
        if negb (acc_connect_ok srv) then (RegisterConnectionFailed, users)
        else if acc_select_raises srv then (RegistrationFailed, users)
        else
          match fetchone (select_user username users) with
          | Some _ => (UsernameExists, users)
          | None =>
              if acc_insert_raises srv then (RegistrationFailed, users)
              else if acc_commit_raises srv then (RegistrationFailed, users)
              else
                (Registered (acc_lastrowid srv),
                 users ++ [{| u_id := acc_lastrowid srv; u_username := username;
                              u_password_hash := hashed_password;
                              u_role := role |}])
          end
  | _, _, _ => (MissingFields, users)
  end.

Inductive LoginResponse :=
| LoggedIn (id : Z) (username : string) (role : string)
| MissingCredentials
| LoginConnectionFailed
| InvalidCredentials
| LoginFailed.

(** [POST /api/login]. [verify_password stored provided] is passlib's
    check of a password against a stored hash, taken as a parameter. *)
Definition login (verify_password : string → string → bool) (srv : Accounts)
    (users : list User) (data : Credentials) : LoginResponse :=
  match cr_username data, cr_password data with
  | Some username, Some password =>
      if negb (truthy_str (cr_username data)) || negb (truthy_str (cr_password data))
      then MissingCredentials
      else if negb (acc_connect_ok srv) then LoginConnectionFailed
      else if acc_select_raises srv then LoginFailed
      else
        match fetchone (select_user username users) with
        | Some user =>
            if verify_password (u_password_hash user) password
            then LoggedIn (u_id user) (u_username user) (u_role user)
            else InvalidCredentials
        | None => InvalidCredentials
        end
  | _, _ => MissingCredentials
  end.

(** The user names are pairwise different and every role is one of the two. *)
Definition users_ok (users : list User) : Prop :=
  NoDup (map u_username users) ∧ Forall (fun u => u_role u ∈ roles) users.

(** A database that answers, and gives id 11 to a new user. *)
Definition desk : Accounts :=
  {| acc_connect_ok := true; acc_select_raises := false;
     acc_insert_raises := false; acc_commit_raises := false;
     acc_lastrowid := 11 |}.

(** A stand-in for the hash of passlib, for running the handlers. *)
Definition toy_hash (password : string) : string := ("h:" ++ password)%string.

Definition toy_verify (stored provided : string) : bool :=
  String.eqb stored (toy_hash provided).

Definition ravi : Credentials :=
  {| cr_username := Some "ravi"%string; cr_password := Some "s3cret"%string;
     cr_role := Some "canteen"%string |}.

Local Ltac raised H :=
  cbn in H; (injection H as <- <-); cbn; by eauto.

(** ** Coupon rows before and after a request, column by column *)

(** [c1] is the row [c0] with [n] added to [uses_count]; every other column
    is as it was. *)
Definition same_but_uses (n : Z) (c0 c1 : Coupon) : Prop :=
  c_id c1 = c_id c0 ∧ c_code c1 = c_code c0 ∧
  discount_percentage c1 = discount_percentage c0 ∧
  discount_fixed c1 = discount_fixed c0 ∧
  valid_until c1 = valid_until c0 ∧
  max_uses c1 = max_uses c0 ∧ is_active c1 = is_active c0 ∧
  uses_count c1 = uses_count c0 + n.

(** The coupon table [cs'] is the table [cs] after one more use of the
    coupon [id]: the same rows in the same places, [uses_count] raised by
    one on a row of that id and by nothing on any other row. *)
Definition used_once_more (id : Z) (cs cs' : list Coupon) : Prop :=
  Forall2 (fun c0 c1 => same_but_uses (if c_id c0 =? id then 1 else 0) c0 c1)
    cs cs'.

(** Python's truth test of a [DECIMAL] column: the column is set to an
    amount that is not zero, or it is NULL or zero. *)
Definition amount_set (x : option Q) (q : Q) : Prop :=
  x = Some q ∧ ¬ (q == 0)%Q.

Definition amount_blank (x : option Q) : Prop :=
  x = None ∨ ∃ q, x = Some q ∧ (q == 0)%Q.

(** The discount the columns of [c] give on a subtotal: the percentage of
    the subtotal when one is set, else the fixed amount capped at the
    subtotal when one is set, else nothing. *)
Definition discount_as_coded (c : Coupon) (total discount : Q) : Prop :=
  (∀ p, amount_set (discount_percentage c) p →
        (discount == total * p / 100)%Q) ∧
  (∀ f, amount_blank (discount_percentage c) →
        amount_set (discount_fixed c) f →
        (discount == Qmin total f)%Q) ∧
  (amount_blank (discount_percentage c) → amount_blank (discount_fixed c) →
   (discount == 0)%Q).

(** The row the coupon [SELECT] gives first for [code]: the first row of the
    table, in table order, that carries the code and is active. *)
Definition first_active (code : string) (cs : list Coupon) (c : Coupon) : Prop :=
  ∃ pre post, cs = pre ++ c :: post ∧
              c_code c = code ∧ is_active c = true ∧
              Forall (fun x => c_code x ≠ code ∨ is_active x = false) pre.

(** Two rows of the canteen's coupon table. *)
Definition coupon_ten : Coupon :=
  {| c_id := 1; c_code := "TEN"; discount_percentage := Some (10 # 1);
     discount_fixed := None; valid_until := None; uses_count := 0;
     max_uses := Some 5; is_active := true |}.

Definition coupon_fifty : Coupon :=
  {| c_id := 2; c_code := "FIFTY"; discount_percentage := None;
     discount_fixed := Some (50 # 1); valid_until := Some 200;
     uses_count := 3; max_uses := None; is_active := true |}.

(** ** Two requests at the same time *)

(** What a request has decided on when its reads are done: the header, the
    lines and the coupon to count. *)
Record Plan := {
  pl_order : Order;
  pl_rows : list OrderItem;
  pl_applied : option Coupon
}.

(** The reads of the handler (lines 356 to 434) on the tables [t] that its
    two [SELECT]s see, when no call raises: the test on the request, the
    loop over the lines and the coupon block. *)
Definition read_phase (env : Env) (t : Tables) (req : Request) : Response + Plan :=
  match student_id req with
  | Some sid =>
      if negb (truthy_id (student_id req)) || bool_decide (items req = [])
      then inl MissingStudentOrItems
      else
        match validate_items (menu_items_db t req) (items req) 0%Q [] with
        | inl resp => inl resp
        | inr (total, order_items_data) =>
            let co := coupon_outcome (now env) (coupon_code req) total t in
            inr {| pl_order := order_row (lastrowid env) sid total co;
                   pl_rows := map (order_item_row (lastrowid env)) order_items_data;
                   pl_applied := co_applied co |}
        end
  | None => inl MissingStudentOrItems
  end.

(** The writes of the handler (lines 437 to 457) on the tables as they are
    when the statements run: the two [INSERT]s add their rows, and
    [UPDATE coupons SET uses_count = uses_count + 1] counts from the value
    the row has then; it carries no condition on [max_uses]. *)
Definition write_phase (p : Plan) (t : Tables) : Tables :=
  tables_after t (pl_order p) (pl_rows p) (pl_applied p).

(** Requests that overlap: each runs on a connection of its own, all of
    them have done their reads on the committed tables [db] before the
    first of them writes, and then they write and commit in list order. *)
Definition overlapped (db : Tables) (calls : list (Env * Request))
    : list Response * Tables :=
  fold_left
    (fun '(rs, t) '(env, req) =>
       match read_phase env db req with
       | inl r => (rs ++ [r], t)
       | inr p => (rs ++ [OrderPlaced (o_id (pl_order p))], write_phase p t)
       end)
    calls ([], db).

(** A coupon that may be used once, and two students who send it at the
    same time. *)
Definition coupon_once : Coupon :=
  {| c_id := 6; c_code := "ONCE"; discount_percentage := Some (10 # 1);
     discount_fixed := None; valid_until := None; uses_count := 0;
     max_uses := Some 1; is_active := true |}.

Definition canteen_once : Tables :=
  {| menu_items := menu_items canteen; coupons := [coupon_once];
     orders := []; order_items := [] |}.

Definition later : Env :=
  {| now := 101; lastrowid := 8; connect_ok := true; raises := fun _ => None |}.

Definition two_at_once : list (Env * Request) :=
  [ (quiet, cart [(1, 2)] (Some "ONCE"%string));
    (later, {| student_id := Some 4;
               items := [{| menu_item_id := 3; quantity := 1 |}];
               coupon_code := Some "ONCE"%string |}) ].

(** ** The validation loop *)

Section Validation.
Variable m : gmap Z MenuItem.

Lemma validate_items_inr its : ∀ total acc total' acc',
  validate_items m its total acc = inr (total', acc') →
  ∃ new, acc' = acc ++ new ∧ (total' == total + sum_data new)%Q ∧
         Forall2 (line_priced m) its new.
Proof.
  induction its as [|l its IH]; intros total acc total' acc' H; simpl in H.
  - inversion H; subst. exists []. rewrite app_nil_r. simpl.
    split; [done|]. split; [lra | constructor].
  - destruct (m !! menu_item_id l) as [mi|] eqn:Hm; [|discriminate].
    destruct (mi_is_available mi) eqn:Hav; simpl in H; [|discriminate].
    destruct (quantity l <=? 0) eqn:Hq; [discriminate|].
    apply Z.leb_gt in Hq.
    apply IH in H as (new & -> & Hsum & Hall).
    exists ({| d_menu_item_id := menu_item_id l; d_quantity := quantity l;
               d_price_at_order := mi_price mi |} :: new).
    rewrite <- app_assoc. split; [done|].
    split; [simpl in *; lra|].
    constructor; [|done]. repeat split; simpl; eauto 10.
Qed.

Lemma validate_items_ok its : ∀ total acc,
  Forall (line_ok m) its →
  ∃ total' acc', validate_items m its total acc = inr (total', acc').
Proof.
  induction its as [|l its IH]; intros total acc H; simpl; [eauto|].
  inversion H as [|? ? (mi & Hm & Hav & Hq) Hrest]; subst.
  rewrite Hm, Hav. simpl.
  destruct (quantity l <=? 0) eqn:Hle; [apply Z.leb_le in Hle; lia|].
  by apply IH.
Qed.


Lemma validate_items_inl its : ∀ total acc r,
  validate_items m its total acc = inl r → is_placed r = false.
Proof.
  induction its as [|l its IH]; intros total acc r H; simpl in H; [discriminate|].
  destruct (m !! menu_item_id l) as [mi|]; [|by inversion H].
  destruct (negb (mi_is_available mi)); [by inversion H|].
  destruct (quantity l <=? 0); [by inversion H|]. eauto.
Qed.

End Validation.

(** ** The coupon block *)

Lemma coupon_outcome_applied now cc total t c :
  co_applied (coupon_outcome now cc total t) = Some c →
  truthy_str cc = true ∧
  co_coupon_code (coupon_outcome now cc total t) = cc ∧
  co_discount_amount (coupon_outcome now cc total t) = coupon_discount total c ∧
  coupon_valid now (Some c) = true ∧
  ∃ code, cc = Some code ∧ fetchone (select_coupon code t) = Some c.
Proof.
  unfold coupon_outcome. destruct cc as [code|]; [|discriminate].
  destruct (truthy_str (Some code)) eqn:Ht; [|discriminate].
  destruct (fetchone (select_coupon code t)) as [c'|] eqn:Hf; [|discriminate].
  destruct (coupon_valid now (Some c')) eqn:Hv; [|discriminate].
  simpl. intros [= ->]. eauto 10.
Qed.

Lemma coupon_outcome_not_applied now cc total t :
  co_applied (coupon_outcome now cc total t) = None →
  co_discount_amount (coupon_outcome now cc total t) = 0%Q ∧
  (truthy_str cc = true → co_coupon_code (coupon_outcome now cc total t) = None).
Proof.
  unfold coupon_outcome. destruct cc as [code|]; [|done].
  destruct (truthy_str (Some code)) eqn:Ht; [|done].
  destruct (fetchone (select_coupon code t)) as [c'|]; [|done].
  destruct (coupon_valid now (Some c')); [discriminate|done].
Qed.

Lemma apply_coupon_run env cc total c :
  apply_coupon env cc total c =
    match cc, truthy_str cc, raises env SelectCoupon with
    | Some _, true, Some e => (Raise e, c)
    | _, _, _ => (Ok (coupon_outcome (now env) cc total (working c)), c)
    end.
Proof.
  destruct c as [cm w]. unfold apply_coupon, coupon_outcome.
  destruct cc as [code|]; [|done].
  destruct (truthy_str (Some code)); [|done].
  unfold bind, execute, ret. cbn [working committed].
  destruct (raises env SelectCoupon); [done|].
  destruct (fetchone (select_coupon code w)) as [c'|]; [|done].
  by destruct (coupon_valid (now env) (Some c')).
Qed.

Lemma apply_coupon_ok env cc total c :
  raises env SelectCoupon = None →
  apply_coupon env cc total c
  = (Ok (coupon_outcome (now env) cc total (working c)), c).
Proof.
  intros Hq. rewrite apply_coupon_run, Hq.
  destruct cc; [|done]. by destruct (truthy_str _).
Qed.

(** ** The handler: every run either commits the whole order or nothing *)

Lemma place_order_cases env db req r db' :
  place_order env db req = (r, db') →
  (is_placed r = false ∧ db' = db)
  ∨ ∃ sid total data,
      student_id req = Some sid ∧
      validate_items (menu_items_db db req) (items req) 0%Q [] = inr (total, data) ∧
      r = OrderPlaced (lastrowid env) ∧
      db' = committed_order env db req sid total data.
Proof.
  unfold place_order. intros H.
  destruct (student_id req) as [sid|] eqn:Hsid; [|nothing_persisted H].
  destruct (negb (truthy_id (Some sid)) || bool_decide (items req = []));
    [nothing_persisted H|].
  destruct (negb (connect_ok env)); [nothing_persisted H|].
  unfold try_except, place_order_try in H.
  destruct (bool_decide (map menu_item_id (items req) = []));
    [nothing_persisted H|].
  unfold bind at 1 in H. unfold execute at 1 in H.
  destruct (raises env SelectMenuItems) as [[]|];
    [nothing_persisted H|nothing_persisted H|].
  cbn [working committed] in H.
  fold (menu_items_db db req) in H.
  destruct (validate_items (menu_items_db db req) (items req) 0%Q [])
    as [resp|[total data]] eqn:Hv.
  { apply validate_items_inl in Hv. cbn in H. injection H as <- <-. by left. }
  unfold bind at 1 in H. rewrite apply_coupon_run in H.
  cbn [working committed] in H.
  set (co := coupon_outcome (now env) (coupon_code req) total db) in *.
  assert (Hco : co = coupon_outcome (now env) (coupon_code req) total db) by done.
  assert (Hrun : (let '(r, c) :=
     match
       (execute env InsertOrder
         (fun t => (tt, insert_order (order_row (lastrowid env) sid total co) t)) ;;;
        execute env InsertOrderItems
         (fun t => (tt, insert_order_items
                          (map (order_item_row (lastrowid env)) data) t)) ;;;
        (match co_applied co with
         | Some c =>
            if truthy_str (co_coupon_code co)
            then execute env UpdateCoupon (fun t => (tt, update_coupon (c_id c) t))
            else ret tt
         | None => ret tt
         end) ;;;
        commit env ;;;
        return_ (OrderPlaced (lastrowid env)))%txn
       {| committed := db; working := db |}
     with
     | (Ok r, c') => (r, c')
     | (Return r, c') => (r, c')
     | (Raise DbError, c') => (FailedToPlaceOrder, snd (rollback c'))
     | (Raise OtherException, c') => (UnexpectedError, snd (rollback c'))
     end in (r, committed c)) = (r, db')
     ∨ (is_placed r = false ∧ db' = db)).
  { destruct (coupon_code req) as [code|];
      [destruct (truthy_str (Some code));
       [destruct (raises env SelectCoupon) as [[]|]|]|].
    all: first [ by left
               | right; cbn in H; injection H as <- <-; split; reflexivity ]. }
  clear H. destruct Hrun as [H|H]; [|by left].
  unfold bind, execute, commit, return_, ret in H; cbn [working committed] in H.
  destruct (raises env InsertOrder) as [[]|];
    [nothing_persisted H|nothing_persisted H|].
  destruct (raises env InsertOrderItems) as [[]|];
    [nothing_persisted H|nothing_persisted H|].
  destruct (co_applied co) as [c|] eqn:Happ.
  - pose proof Happ as Happ'. rewrite Hco in Happ'.
    apply coupon_outcome_applied in Happ' as (Ht' & Hcode & _).
    rewrite <- Hco in Hcode. rewrite Hcode, Ht' in H.
    destruct (raises env UpdateCoupon) as [[]|];
      [nothing_persisted H|nothing_persisted H|].
    cbn [working committed] in H.
    destruct (raises env Commit) as [[]|];
      [nothing_persisted H|nothing_persisted H|].
    cbn in H. injection H as <- <-.
    right; exists sid, total, data. repeat (split; [done|]).
    unfold committed_order, tables_after. fold co. by rewrite Happ.
  - destruct (raises env Commit) as [[]|];
      [nothing_persisted H|nothing_persisted H|].
    cbn in H. injection H as <- <-.
    right; exists sid, total, data. repeat (split; [done|]).
    unfold committed_order, tables_after. fold co. by rewrite Happ.
Qed.

(** Without a database fault, a request with a requester and a cart that
    passes the loop is committed. *)
Lemma place_order_commits env db req sid total data :
  no_faults env →
  student_id req = Some sid → sid ≠ 0 → items req ≠ [] →
  validate_items (menu_items_db db req) (items req) 0%Q [] = inr (total, data) →
  place_order env db req
  = (OrderPlaced (lastrowid env), committed_order env db req sid total data).
Proof.
  intros [Hconn Hq] Hsid Hnz Hne Hv.
  unfold place_order. rewrite Hsid. simpl truthy_id.
  destruct (Z.eqb_spec sid 0) as [?|_]; [done|].
  rewrite bool_decide_eq_false_2 by done. rewrite Hconn. simpl negb. cbn [orb].
  unfold try_except, place_order_try.
  rewrite bool_decide_eq_false_2
    by (destruct (items req); [done | discriminate]).
  unfold bind at 1. unfold execute at 1. rewrite Hq. cbn [working committed].
  fold (menu_items_db db req). rewrite Hv.
  unfold bind at 1. rewrite apply_coupon_ok by done. cbn [working committed].
  unfold committed_order.
  set (co := coupon_outcome (now env) (coupon_code req) total db).
  unfold bind, execute, commit, return_, ret. rewrite !Hq. cbn [working committed].
  destruct (co_applied co) as [c|] eqn:Happ.
  - pose proof Happ as Happ'. apply coupon_outcome_applied in Happ' as (Ht' & Hcode & _).
    fold co in Hcode. unfold order_row. rewrite Hcode, Ht'. reflexivity.
  - reflexivity.
Qed.

(** ** The catalog lookup *)

Lemma fold_insert_lookup (rows : list MenuItem) : ∀ (m0 : gmap Z MenuItem) k mi,
  fold_left (fun m r => <[mi_id r := r]> m) rows m0 !! k = Some mi →
  (mi ∈ rows ∧ mi_id mi = k) ∨ m0 !! k = Some mi.
Proof.
  induction rows as [|r rows IH]; intros m0 k mi H; simpl in H; [by right|].
  apply IH in H as [[Hin Hk]|H].
  - left. split; [by apply list_elem_of_further | done].
  - destruct (decide (mi_id r = k)) as [<-|Hne].
    + rewrite lookup_insert_eq in H. injection H as ->.
      left. split; [apply list_elem_of_here | done].
    + rewrite lookup_insert_ne in H by done. by right.
Qed.

Lemma rows_by_id_lookup rows k mi :
  rows_by_id rows !! k = Some mi → mi ∈ rows ∧ mi_id mi = k.
Proof.
  intros H. apply fold_insert_lookup in H as [H|H]; [done|].
  by rewrite lookup_empty in H.
Qed.

Lemma menu_items_db_elem db req k mi :
  menu_items_db db req !! k = Some mi → mi ∈ menu_items db ∧ mi_id mi = k.
Proof.
  intros H. apply rows_by_id_lookup in H as [Hin Hk]. split; [|done].
  unfold select_menu_items in Hin.
  apply list_elem_of_In, filter_In in Hin as [Hin _].
  by apply list_elem_of_In.
Qed.

Lemma fold_insert_filter (P : MenuItem → bool) k (rows : list MenuItem) :
  (∀ r, r ∈ rows → mi_id r = k → P r = true) →
  ∀ m0 m1 : gmap Z MenuItem, m0 !! k = m1 !! k →
  fold_left (fun m r => <[mi_id r := r]> m) (List.filter P rows) m0 !! k
  = fold_left (fun m r => <[mi_id r := r]> m) rows m1 !! k.
Proof.
  induction rows as [|r rows IH]; intros HP m0 m1 Hm; simpl; [done|].
  assert (HP' : ∀ r', r' ∈ rows → mi_id r' = k → P r' = true).
  { intros r' Hin. apply HP. by apply list_elem_of_further. }
  destruct (P r) eqn:Hr; simpl.
  - apply IH; [done|].
    destruct (decide (mi_id r = k)) as [<-|Hne].
    + by rewrite !lookup_insert_eq.
    + by rewrite !lookup_insert_ne.
  - apply IH; [done|].
    destruct (decide (mi_id r = k)) as [Hk|Hne].
    + rewrite HP in Hr; [done | apply list_elem_of_here | done].
    + by rewrite lookup_insert_ne.
Qed.

(** The batched [SELECT ... WHERE id IN (...)] resolves every id of the cart
    as a lookup in the whole catalog would. *)
Lemma menu_items_db_lookup db req l :
  l ∈ items req →
  menu_items_db db req !! menu_item_id l
  = rows_by_id (menu_items db) !! menu_item_id l.
Proof.
  intros Hin. unfold menu_items_db, rows_by_id, select_menu_items.
  apply fold_insert_filter; [|done].
  intros r _ Hk. apply bool_decide_eq_true_2. rewrite Hk.
  apply list_elem_of_fmap. by exists l.
Qed.

(** ** Amounts *)

Lemma sum_data_nonneg m its new :
  (∀ k mi, m !! k = Some mi → (0 <= mi_price mi)%Q) →
  Forall2 (line_priced m) its new → (0 <= sum_data new)%Q.
Proof.
  intros Hm Hall. induction Hall as [|l d its new Hd _ IH]; simpl; [lra|].
  destruct Hd as (_ & Hq & mi & Hlk & _ & Hpos & Hp).
  apply Hm in Hlk. rewrite Hp, Hq.
  assert (0 <= inject_Z (quantity l))%Q.
  { change 0%Q with (inject_Z 0). rewrite <- Zle_Qle. lia. }
  assert (0 <= mi_price mi * inject_Z (quantity l))%Q
    by (apply Qmult_le_0_compat; done).
  lra.
Qed.

Lemma coupon_discount_bounds total c :
  (0 <= total)%Q → coupon_in_range c →
  (0 <= coupon_discount total c)%Q ∧ (coupon_discount total c <= total)%Q.
Proof.
  intros Ht [Hp Hf]. unfold coupon_discount.
  destruct (discount_percentage c) as [p|] eqn:Ep; simpl.
  - destruct (Hp p eq_refl) as [Hp0 Hp1].
    destruct (Qeq_bool p 0); simpl.
    + destruct (discount_fixed c) as [f|] eqn:Ef; simpl; [|lra].
      specialize (Hf f eq_refl).
      destruct (Qeq_bool f 0); simpl; [lra|].
      split; [apply Q.min_glb; lra | apply Q.le_min_l].
    + assert (Hfrac : (0 <= p / 100)%Q ∧ (p / 100 <= 1)%Q).
      { split.
        - apply Qle_shift_div_l; lra.
        - apply Qle_shift_div_r; lra. }
      destruct Hfrac as [H0 H1].
      generalize dependent (p / 100)%Q. intros x H0 H1. split; nra.
  - destruct (discount_fixed c) as [f|] eqn:Ef; simpl; [|lra].
    specialize (Hf f eq_refl).
    destruct (Qeq_bool f 0); simpl; [lra|].
    split; [apply Q.min_glb; lra | apply Q.le_min_l].
Qed.

(** ** The coupon lookup *)

Lemma coupon_valid_usable now c :
  is_active c = true → (coupon_valid now (Some c) = true ↔ usable now c).
Proof.
  intros Hact. unfold coupon_valid, usable. rewrite andb_true_iff. split.
  - intros [Ht Hm]. split; [done|]. split.
    + destruct (valid_until c) as [t|]; [right|by left].
      exists t. split; [done|]. by apply Z.ltb_lt.
    + destruct (max_uses c) as [m|]; [right|by left].
      exists m. split; [done|]. by apply Z.ltb_lt.
  - intros (_ & [->|(t & -> & Ht)] & [->|(m & -> & Hm)]);
      split; try done; by apply Z.ltb_lt.
Qed.

Lemma fetchone_select_coupon code t c :
  fetchone (select_coupon code t) = Some c →
  c ∈ coupons t ∧ c_code c = code ∧ is_active c = true.
Proof.
  unfold fetchone, select_coupon. intros H.
  assert (Hin : In c (List.filter
            (fun c => String.eqb (c_code c) code && is_active c) (coupons t))).
  { destruct (List.filter _ _) as [|x xs]; [discriminate|].
    injection H as ->. by left. }
  apply filter_In in Hin as [Hin Hb]. apply andb_true_iff in Hb as [Hc Ha].
  split; [by apply list_elem_of_In|]. split; [by apply String.eqb_eq | done].
Qed.

Lemma select_coupon_absent code cs :
  code ∉ map c_code cs →
  List.filter (fun c => String.eqb (c_code c) code && is_active c) cs = [].
Proof.
  induction cs as [|x cs IH]; intros Hnot; simpl; [done|].
  destruct (String.eqb_spec (c_code x) code) as [Heq|Hne]; simpl.
  - exfalso. apply Hnot. simpl. rewrite Heq. apply list_elem_of_here.
  - apply IH. intros Hin. apply Hnot. simpl. by apply list_elem_of_further.
Qed.

(** With unique codes, the lookup by code finds a given row exactly when
    the row is active. *)
Lemma select_coupon_unique t c :
  NoDup (map c_code (coupons t)) → c ∈ coupons t →
  fetchone (select_coupon (c_code c) t) = if is_active c then Some c else None.
Proof.
  unfold fetchone, select_coupon.
  induction (coupons t) as [|x cs IH]; intros Hnd Hin; [by apply elem_of_nil in Hin|].
  simpl in Hnd. apply NoDup_cons in Hnd as [Hx Hnd].
  apply elem_of_cons in Hin as [->|Hin]; simpl.
  - rewrite String.eqb_refl. simpl.
    destruct (is_active x); [done|]. by rewrite select_coupon_absent.
  - destruct (String.eqb_spec (c_code x) (c_code c)) as [Heq|Hne]; simpl.
    + exfalso. apply Hx. rewrite Heq. apply list_elem_of_fmap. by exists c.
    + by apply IH.
Qed.

(** ** Rejected carts *)

Lemma place_order_rejects env db req sid r :
  connect_ok env = true → raises env SelectMenuItems = None →
  student_id req = Some sid → sid ≠ 0 → items req ≠ [] →
  validate_items (menu_items_db db req) (items req) 0%Q [] = inl r →
  place_order env db req = (r, db).
Proof.
  intros Hconn Hq Hsid Hnz Hne Hv.
  unfold place_order. rewrite Hsid. simpl truthy_id.
  destruct (Z.eqb_spec sid 0) as [?|_]; [done|].
  rewrite bool_decide_eq_false_2 by done. rewrite Hconn. simpl negb. cbn [orb].
  unfold try_except, place_order_try.
  rewrite bool_decide_eq_false_2
    by (destruct (items req); [done | discriminate]).
  unfold bind at 1. unfold execute at 1. rewrite Hq. cbn [working committed].
  fold (menu_items_db db req). rewrite Hv. reflexivity.
Qed.



Lemma canteen_prices_nonneg : prices_nonneg canteen.
Proof.
  unfold prices_nonneg, canteen; cbn [menu_items].
  repeat first [apply List.Forall_nil | apply List.Forall_cons]; discriminate.
Qed.

Lemma canteen_coupons_in_range : coupons_in_range canteen.
Proof.
  unfold coupons_in_range, canteen; cbn [coupons].
  repeat first [apply List.Forall_nil | apply List.Forall_cons].
  all: split; cbn; intros q [= <-]; try split; discriminate.
Qed.

(** ** Amounts of a placed order *)

Lemma placed_total_nonneg db req total data :
  prices_nonneg db →
  validate_items (menu_items_db db req) (items req) 0%Q [] = inr (total, data) →
  (0 <= total)%Q.
Proof.
  intros Hp Hv. apply validate_items_inr in Hv as (new & _ & Hsum & Hall).
  assert (0 <= sum_data new)%Q; [|lra].
  apply (sum_data_nonneg (menu_items_db db req) (items req)); [|done].
  intros k mi Hk. apply menu_items_db_elem in Hk as [Hin _].
  unfold prices_nonneg in Hp. rewrite Forall_forall in Hp. by apply Hp.
Qed.

(** C1. For every placed order, with catalog prices that are not negative
    and coupons whose percentage lies in 0..100 and whose fixed amount is
    not negative, the recorded header satisfies
    [final_amount = total_amount - discount_amount] and
    [0 <= discount_amount <= total_amount]; so [final_amount] is not
    negative. *)
Theorem placed_order_amounts env db req oid db' :
  prices_nonneg db → coupons_in_range db →
  place_order env db req = (OrderPlaced oid, db') →
  ∃ o, orders db' = orders db ++ [o] ∧ o_id o = oid ∧
       final_amount o = (total_amount o - discount_amount o)%Q ∧
       (0 <= discount_amount o)%Q ∧
       (discount_amount o <= total_amount o)%Q ∧
       (0 <= final_amount o)%Q.
Proof.
  intros Hp Hc H.
  apply place_order_cases in H as [[? _]|(sid & total & data & _ & Hv & [= ->] & ->)];
    [done|].
  pose proof (placed_total_nonneg _ _ _ _ Hp Hv) as Htot.
  eexists. split; [reflexivity|]. split; [reflexivity|]. split; [reflexivity|].
  cbn [order_row discount_amount total_amount final_amount].
  set (co := coupon_outcome (now env) (coupon_code req) total db).
  assert (Hb : (0 <= co_discount_amount co)%Q ∧ (co_discount_amount co <= total)%Q).
  { destruct (co_applied co) as [c|] eqn:Happ.
    - apply coupon_outcome_applied in Happ as (_ & _ & Hd & _ & code & _ & Hf).
      fold co in Hd. rewrite Hd. apply coupon_discount_bounds; [done|].
      apply fetchone_select_coupon in Hf as [Hin _].
      unfold coupons_in_range in Hc. rewrite Forall_forall in Hc. by apply Hc.
    - apply coupon_outcome_not_applied in Happ as [Hd _].
      fold co in Hd. rewrite Hd. split; lra. }
  destruct Hb. repeat split; try done. lra.
Qed.

Lemma placed_order_amounts_witness :
  ∃ o, orders (snd (place_order quiet canteen (cart [(1, 2)] (Some "TEN"%string))))
       = orders canteen ++ [o] ∧ o_id o = 7 ∧
       final_amount o = (total_amount o - discount_amount o)%Q ∧
       (0 <= discount_amount o)%Q ∧
       (discount_amount o <= total_amount o)%Q ∧
       (0 <= final_amount o)%Q.
Proof.
  apply (placed_order_amounts quiet canteen (cart [(1, 2)] (Some "TEN"%string))).
  - exact canteen_prices_nonneg.
  - exact canteen_coupons_in_range.
  - vm_compute. reflexivity.
Defined.

(** ** The write set *)

Lemma increment_uses_lookup id cs i c :
  cs !! i = Some c →
  increment_uses id cs !! i = Some (if c_id c =? id then use_once c else c).
Proof. intros H. unfold increment_uses. by rewrite list_lookup_fmap, H. Qed.

Lemma increment_uses_used_once id cs :
  used_once_more id cs (increment_uses id cs).
Proof.
  unfold used_once_more, increment_uses.
  induction cs as [|c cs IH]; simpl; constructor; [|done].
  destruct (c_id c =? id); unfold same_but_uses; simpl; repeat split; lia.
Qed.

Lemma used_once_more_lookup id cs cs' i c0 :
  used_once_more id cs cs' → cs !! i = Some c0 →
  ∃ c1, cs' !! i = Some c1 ∧
        uses_count c1 = uses_count c0 + (if c_id c0 =? id then 1 else 0).
Proof.
  intros Hall Hi.
  destruct (Forall2_lookup_l _ _ _ _ _ Hall Hi) as (c1 & Hc1 & Hs).
  exists c1. split; [done|]. apply Hs.
Qed.

Lemma used_once_more_elem id cs cs' c :
  used_once_more id cs cs' → c ∈ cs → c_id c = id →
  ∃ c', c' ∈ cs' ∧ c_id c' = c_id c ∧ uses_count c' = uses_count c + 1.
Proof.
  intros Hall Hin Hid.
  apply list_elem_of_lookup in Hin as [i Hi].
  destruct (Forall2_lookup_l _ _ _ _ _ Hall Hi) as (c1 & Hc1 & Hs).
  exists c1. split; [by eapply list_elem_of_lookup_2|].
  destruct Hs as (Hid1 & _ & _ & _ & _ & _ & _ & Hu).
  split; [done|]. rewrite Hu, Hid, Z.eqb_refl. done.
Qed.

Lemma truthy_dec_blank x : amount_blank x → truthy_dec x = false.
Proof.
  intros [->|(q & -> & Hq)]; simpl; [done|].
  apply negb_false_iff. by apply Qeq_eq_bool.
Qed.

Lemma truthy_dec_set x q : amount_set x q → truthy_dec x = true ∧ dec_value x = q.
Proof.
  intros [-> Hq]. simpl. split; [|done].
  apply negb_true_iff. destruct (Qeq_bool q 0) eqn:E; [|done].
  by apply Qeq_bool_eq in E.
Qed.

Lemma coupon_discount_as_coded total c :
  discount_as_coded c total (coupon_discount total c).
Proof.
  unfold discount_as_coded, coupon_discount. split; [|split].
  - intros p Hp. apply truthy_dec_set in Hp as [-> ->]. unfold Qdiv. ring.
  - intros f Hb Hf. rewrite (truthy_dec_blank _ Hb).
    apply truthy_dec_set in Hf as [-> ->]. reflexivity.
  - intros Hb1 Hb2. rewrite (truthy_dec_blank _ Hb1), (truthy_dec_blank _ Hb2).
    reflexivity.
Qed.

Lemma head_filter_first {A} (f : A → bool) (l : list A) (x : A) :
  head (List.filter f l) = Some x ↔
  ∃ pre post, l = pre ++ x :: post ∧ f x = true ∧
              Forall (fun y => f y = false) pre.
Proof.
  induction l as [|y l IH]; simpl.
  - split; [discriminate|]. intros (pre & post & Hl & _). by destruct pre.
  - destruct (f y) eqn:Hy; simpl.
    + split.
      * intros [= ->]. exists [], l. split; [done|]. split; [done|]. constructor.
      * intros (pre & post & Hl & Hx & Hpre).
        destruct pre as [|z pre]; simpl in Hl; injection Hl as -> ->; [done|].
        apply Forall_cons in Hpre as [Hz _]. congruence.
    + rewrite IH. split.
      * intros (pre & post & -> & Hx & Hpre). exists (y :: pre), post.
        split; [done|]. split; [done|]. by constructor.
      * intros (pre & post & Hl & Hx & Hpre).
        destruct pre as [|z pre]; simpl in Hl; injection Hl as -> ->; [congruence|].
        apply Forall_cons in Hpre as [_ Hpre]. by exists pre, post.
Qed.

(** The first row the coupon [SELECT] gives is the first active row of the
    table with the code. *)
Lemma fetchone_first_active code t c :
  fetchone (select_coupon code t) = Some c ↔ first_active code (coupons t) c.
Proof.
  unfold fetchone, select_coupon, first_active. rewrite head_filter_first.
  split.
  - intros (pre & post & Hl & Hx & Hpre). exists pre, post. split; [done|].
    apply andb_true_iff in Hx as [Hc Ha]. apply String.eqb_eq in Hc.
    split; [done|]. split; [done|].
    eapply Forall_impl; [exact Hpre|]. intros y Hy. simpl in Hy.
    apply andb_false_iff in Hy as [Hy|Hy]; [left | by right].
    by apply String.eqb_neq.
  - intros (pre & post & Hl & Hc & Ha & Hnone). exists pre, post. split; [done|].
    split.
    + rewrite Ha, andb_true_r. by apply String.eqb_eq.
    + eapply Forall_impl; [exact Hnone|]. intros y Hy. simpl in Hy.
      apply andb_false_iff. destruct Hy as [Hy|Hy]; [left | by right].
      by apply String.eqb_neq.
Qed.

Lemma truthy_str_true code : code ≠ EmptyString → truthy_str (Some code) = true.
Proof. by destruct code. Qed.

Lemma truthy_str_false cc :
  truthy_str cc = false → cc = None ∨ cc = Some EmptyString.
Proof. destruct cc as [[|a s]|]; [by right | discriminate | by left]. Qed.

(** The two ways the coupon block ends: no coupon is applied, and then the
    request named no first active row that is usable; or the first active
    row with the supplied code is usable and is the coupon applied. *)
Lemma coupon_outcome_effect now cc total t :
  (co_applied (coupon_outcome now cc total t) = None ∧
   truthy_str (co_coupon_code (coupon_outcome now cc total t)) = false ∧
   co_discount_amount (coupon_outcome now cc total t) = 0%Q ∧
   ¬ ∃ c, cc = Some (c_code c) ∧ c_code c ≠ EmptyString ∧
          first_active (c_code c) (coupons t) c ∧ usable now c)
  ∨ ∃ c, co_applied (coupon_outcome now cc total t) = Some c ∧
         cc = Some (c_code c) ∧ c_code c ≠ EmptyString ∧
         first_active (c_code c) (coupons t) c ∧ usable now c ∧
         co_coupon_code (coupon_outcome now cc total t) = Some (c_code c) ∧
         co_discount_amount (coupon_outcome now cc total t)
         = coupon_discount total c.
Proof.
  destruct (co_applied (coupon_outcome now cc total t)) as [c|] eqn:Happ.
  - right. exists c.
    apply coupon_outcome_applied in Happ as (Ht & Hcode & Hd & Hvalid & code & -> & Hf).
    pose proof (fetchone_select_coupon _ _ _ Hf) as (Hin & <- & Hact).
    split; [done|]. split; [done|].
    split; [intros He; by rewrite He in Ht|].
    split; [by apply fetchone_first_active|].
    split; [by apply coupon_valid_usable|]. done.
  - left. split; [done|].
    pose proof (coupon_outcome_not_applied _ _ _ _ Happ) as [Hd Hnone].
    split; [|split; [done|]].
    + destruct (truthy_str cc) eqn:Ht; [by rewrite Hnone|].
      unfold coupon_outcome. destruct cc as [code|]; [|done]. by rewrite Ht.
    + intros (c & -> & Hne & Hfirst & Hu).
      apply fetchone_first_active in Hfirst.
      unfold coupon_outcome in Happ.
      rewrite (truthy_str_true _ Hne), Hfirst in Happ.
      destruct Hu as [Hact Hu'].
      rewrite (proj2 (coupon_valid_usable now c Hact)) in Happ; [discriminate|].
      by split.
Qed.

(** C2. The write set of [place_order] is one atomic unit. Whatever database
    call raises, a run ends in one of two ways. Either the response is not
    a success and the committed tables are exactly those before the call
    (no order header, no order line, no change of [uses_count]); or the
    response is the success with the new order id and the committed tables
    hold one new header and one new line per cart line carrying that order
    id, together with the coupon's use. In the second case the header tells
    which: either it carries no coupon code, its discount is [0], no coupon
    row has changed and the request named no usable coupon; or it carries
    the code of the first active row [c] with the supplied code, that row
    is usable, the discount is the one its columns give, and the coupon
    table is as before but for [uses_count] raised by exactly one on the
    row of [c] and by nothing on the others. *)
Theorem write_set_atomic env db req r db' :
  place_order env db req = (r, db') →
  (is_placed r = false ∧ db' = db)
  ∨ ∃ o rows,
      r = OrderPlaced (o_id o) ∧
      menu_items db' = menu_items db ∧
      orders db' = orders db ++ [o] ∧
      order_items db' = order_items db ++ rows ∧
      length rows = length (items req) ∧
      Forall (fun row => oi_order_id row = o_id o) rows ∧
      (((o_coupon_code o = None ∨ o_coupon_code o = Some EmptyString) ∧
        discount_amount o = 0%Q ∧
        coupons db' = coupons db ∧
        ¬ ∃ c, coupon_code req = Some (c_code c) ∧ c_code c ≠ EmptyString ∧
               first_active (c_code c) (coupons db) c ∧ usable (now env) c)
       ∨ ∃ c, c ∈ coupons db ∧ first_active (c_code c) (coupons db) c ∧
              usable (now env) c ∧
              coupon_code req = Some (c_code c) ∧ c_code c ≠ EmptyString ∧
              o_coupon_code o = Some (c_code c) ∧
              discount_as_coded c (total_amount o) (discount_amount o) ∧
              used_once_more (c_id c) (coupons db) (coupons db') ∧
              coupons db' = increment_uses (c_id c) (coupons db) ∧
              ∀ i c0, coupons db !! i = Some c0 →
                ∃ c1, coupons db' !! i = Some c1 ∧
                      uses_count c1
                      = uses_count c0 + (if c_id c0 =? c_id c then 1 else 0)).
Proof.
  intros H.
  apply place_order_cases in H as [?|(sid & total & data & _ & Hv & -> & ->)];
    [by left|right].
  unfold committed_order.
  set (co := coupon_outcome (now env) (coupon_code req) total db).
  exists (order_row (lastrowid env) sid total co),
         (map (order_item_row (lastrowid env)) data).
  apply validate_items_inr in Hv as (new & Hd & _ & Hall). simpl in Hd. subst data.
  repeat (split; [done|]).
  split. { rewrite length_map. symmetry. by eapply Forall2_length. }
  split. { apply Forall_forall. intros row Hin.
           apply list_elem_of_fmap in Hin as (d & -> & _). done. }
  unfold order_row; cbn [o_coupon_code discount_amount total_amount tables_after coupons].
  destruct (coupon_outcome_effect (now env) (coupon_code req) total db)
    as [(Happ & Hcode & Hdisc & Hnone)|(c & Happ & Hcc & Hne & Hfirst & Hu & Hcode & Hdisc)];
    fold co in Happ, Hcode, Hdisc; rewrite Happ.
  - left. split; [by apply truthy_str_false | done].
  - right. exists c.
    split. { destruct Hfirst as (pre & post & -> & _). apply elem_of_app. right.
             apply list_elem_of_here. }
    repeat (split; [done|]).
    split. { rewrite Hdisc. apply coupon_discount_as_coded. }
    split. { apply increment_uses_used_once. }
    split; [done|].
    intros i c0 Hi.
    apply (used_once_more_lookup _ _ _ _ _ (increment_uses_used_once _ _) Hi).
Qed.

Lemma write_set_atomic_witness :
  ∃ o rows,
    OrderPlaced 7 = OrderPlaced (o_id o) ∧
    menu_items (snd (place_order quiet canteen lunch)) = menu_items canteen ∧
    orders (snd (place_order quiet canteen lunch)) = orders canteen ++ [o] ∧
    order_items (snd (place_order quiet canteen lunch)) = order_items canteen ++ rows ∧
    length rows = length (items lunch) ∧
    Forall (fun row => oi_order_id row = o_id o) rows ∧
    ∃ c, c ∈ coupons canteen ∧ first_active (c_code c) (coupons canteen) c ∧
         usable (now quiet) c ∧
         coupon_code lunch = Some (c_code c) ∧ c_code c ≠ EmptyString ∧
         o_coupon_code o = Some (c_code c) ∧
         discount_as_coded c (total_amount o) (discount_amount o) ∧
         used_once_more (c_id c) (coupons canteen)
           (coupons (snd (place_order quiet canteen lunch))) ∧
         coupons (snd (place_order quiet canteen lunch))
         = increment_uses (c_id c) (coupons canteen) ∧
         ∀ i c0, coupons canteen !! i = Some c0 →
           ∃ c1, coupons (snd (place_order quiet canteen lunch)) !! i = Some c1 ∧
                 uses_count c1
                 = uses_count c0 + (if c_id c0 =? c_id c then 1 else 0).
Proof.
  destruct (write_set_atomic quiet canteen lunch (OrderPlaced 7)
              (snd (place_order quiet canteen lunch)))
    as [[H _]|(o & rows & H1 & H2 & H3 & H4 & H5 & H6 & [(Hc & _)|H7])].
  - vm_compute. reflexivity.
  - discriminate H.
  - exfalso. vm_compute in H3. injection H3 as <-. destruct Hc as [Hc|Hc]; discriminate Hc.
  - exists o, rows. repeat (split; [assumption|]). exact H7.
Defined.

(** A fault after the header was written: the rollback removes the header,
    and the response is the failure of the [except Error] clause. *)
Example fault_after_header_leaves_nothing :
  place_order
    {| now := 100; lastrowid := 7; connect_ok := true;
       raises := fun s => match s with InsertOrderItems => Some DbError | _ => None end |}
    canteen (cart [(1, 2)] (Some "TEN"%string))
  = (FailedToPlaceOrder, canteen).
Proof. vm_compute. reflexivity. Qed.

Example fault_at_commit_leaves_nothing :
  place_order
    {| now := 100; lastrowid := 7; connect_ok := true;
       raises := fun s => match s with Commit => Some DbError | _ => None end |}
    canteen (cart [(1, 2)] (Some "TEN"%string))
  = (FailedToPlaceOrder, canteen).
Proof. vm_compute. reflexivity. Qed.

(** ** The discount of a valid coupon *)

Lemma coupon_discount_rule total c :
  (0 <= total)%Q → one_discount_kind c →
  (∀ p, discount_percentage c = Some p →
        (coupon_discount total c == total * p / 100)%Q) ∧
  (∀ f, discount_fixed c = Some f →
        (coupon_discount total c == Qmin total f)%Q) ∧
  (discount_percentage c = None → discount_fixed c = None →
   coupon_discount total c = 0%Q).
Proof.
  intros Ht Hone. unfold coupon_discount. repeat split.
  - intros p Hp. rewrite Hp. simpl.
    destruct (Qeq_bool p 0) eqn:E; simpl.
    + apply Qeq_bool_eq in E.
      destruct Hone as [Hn|Hn]; [congruence|]. rewrite Hn. simpl.
      rewrite E. unfold Qdiv. ring.
    + unfold Qdiv. ring.
  - intros f Hf. rewrite Hf.
    destruct Hone as [Hn|Hn]; [|congruence]. rewrite Hn. simpl.
    destruct (Qeq_bool f 0) eqn:E; simpl; [|reflexivity].
    apply Qeq_bool_eq in E. rewrite E.
    symmetry. apply Q.min_r. done.
  - intros -> ->. reflexivity.
Qed.

(** C3. When the coupon [c] found for the supplied code is valid, the
    recorded discount is [total * discount_percentage / 100] if the
    percentage is set, [min(total, discount_fixed)] if the fixed amount is
    set, and [0] if neither is set (a coupon row sets at most one of the
    two; catalog prices are not negative). *)
Theorem valid_coupon_discount env db req oid db' code c :
  prices_nonneg db →
  coupon_code req = Some code → code ≠ EmptyString →
  fetchone (select_coupon code db) = Some c →
  coupon_valid (now env) (Some c) = true →
  one_discount_kind c →
  place_order env db req = (OrderPlaced oid, db') →
  ∃ o, orders db' = orders db ++ [o] ∧
       final_amount o = (total_amount o - discount_amount o)%Q ∧
       (∀ p, discount_percentage c = Some p →
             (discount_amount o == total_amount o * p / 100)%Q) ∧
       (∀ f, discount_fixed c = Some f →
             (discount_amount o == Qmin (total_amount o) f)%Q) ∧
       (discount_percentage c = None → discount_fixed c = None →
        discount_amount o = 0%Q).
Proof.
  intros Hp Hcc Hne Hf Hvalid Hone H.
  apply place_order_cases in H as [[? _]|(sid & total & data & _ & Hv & _ & ->)];
    [done|].
  pose proof (placed_total_nonneg _ _ _ _ Hp Hv) as Htot.
  eexists. split; [reflexivity|]. split; [reflexivity|].
  cbn [order_row discount_amount total_amount].
  assert (Hco : co_discount_amount (coupon_outcome (now env) (coupon_code req) total db)
                = coupon_discount total c).
  { unfold coupon_outcome. rewrite Hcc.
    replace (truthy_str (Some code)) with true
      by (destruct code; [done | reflexivity]).
    by rewrite Hf, Hvalid. }
  rewrite Hco. by apply coupon_discount_rule.
Qed.

(** The two worked cases: 10% on a subtotal of 200.00 gives discount 20.00
    and final 180.00; a fixed coupon of 50.00 on a subtotal of 30.00 gives
    discount 30.00 and final 0.00. *)
Example ten_percent_of_200 :
  ∃ o, orders (snd (place_order quiet canteen (cart [(1, 2)] (Some "TEN"%string)))) = [o] ∧
       (total_amount o == 200)%Q ∧ (discount_amount o == 20)%Q ∧
       (final_amount o == 180)%Q.
Proof. eexists. split; [vm_compute; reflexivity|]. by vm_compute. Qed.

Example fixed_50_on_30 :
  ∃ o, orders (snd (place_order quiet canteen (cart [(3, 1)] (Some "FIFTY"%string)))) = [o] ∧
       (total_amount o == 30)%Q ∧ (discount_amount o == 30)%Q ∧
       (final_amount o == 0)%Q.
Proof. eexists. split; [vm_compute; reflexivity|]. by vm_compute. Qed.

Lemma valid_coupon_discount_witness :
  ∃ o, orders (snd (place_order quiet canteen (cart [(3, 1)] (Some "FIFTY"%string))))
       = orders canteen ++ [o] ∧
       final_amount o = (total_amount o - discount_amount o)%Q ∧
       (∀ p, None = Some p → (discount_amount o == total_amount o * p / 100)%Q) ∧
       (∀ f, Some (50 # 1) = Some f → (discount_amount o == Qmin (total_amount o) f)%Q) ∧
       (None = @None Q → Some (50 # 1) = @None Q → discount_amount o = 0%Q).
Proof.
  apply (valid_coupon_discount quiet canteen (cart [(3, 1)] (Some "FIFTY"%string)) 7 _
           "FIFTY"
           {| c_id := 2; c_code := "FIFTY"; discount_percentage := None;
              discount_fixed := Some (50 # 1); valid_until := Some 200;
              uses_count := 3; max_uses := None; is_active := true |}).
  - exact canteen_prices_nonneg.
  - reflexivity.
  - discriminate.
  - reflexivity.
  - reflexivity.
  - left. reflexivity.
  - vm_compute. reflexivity.
Defined.

(** ** When a coupon is applied *)

Lemma coupon_outcome_unique now total t c :
  NoDup (map c_code (coupons t)) → c ∈ coupons t → c_code c ≠ EmptyString →
  (usable now c ∧
   coupon_outcome now (Some (c_code c)) total t
   = {| co_coupon_code := Some (c_code c);
        co_discount_amount := coupon_discount total c;
        co_applied := Some c |})
  ∨ (¬ usable now c ∧
     coupon_outcome now (Some (c_code c)) total t
     = {| co_coupon_code := None; co_discount_amount := 0%Q; co_applied := None |}).
Proof.
  intros Hnd Hin Hne. unfold coupon_outcome.
  replace (truthy_str (Some (c_code c))) with true
    by (destruct (c_code c); [done | reflexivity]).
  rewrite select_coupon_unique by done.
  destruct (is_active c) eqn:Hact.
  - destruct (coupon_valid now (Some c)) eqn:Hv.
    + left. split; [by apply coupon_valid_usable | done].
    + right. split; [|done]. intros Hu.
      apply coupon_valid_usable in Hu; [congruence | done].
  - right. split; [|done]. intros [Ha _]. congruence.
Qed.

(** C4. With unique coupon codes, the coupon row [c] of the supplied code is
    applied to a placed order if and only if it is active, not expired and
    not used up. Applied means: its code is recorded on the header, the
    recorded discount is the one its columns give on the subtotal (the
    percentage of it, or the fixed amount capped at it), and the coupon
    table is as before but for [uses_count], raised by exactly one on the
    row of [c]. Otherwise the header carries no code, the discount is [0]
    and no coupon row changes. In particular a coupon with
    [uses_count = max_uses] gives no discount and its [uses_count] stays as
    it was. *)
Theorem coupon_applied_iff_usable env db req oid db' c :
  NoDup (map c_code (coupons db)) → c ∈ coupons db →
  coupon_code req = Some (c_code c) → c_code c ≠ EmptyString →
  place_order env db req = (OrderPlaced oid, db') →
  ∃ o, orders db' = orders db ++ [o] ∧
       (usable (now env) c ↔ o_coupon_code o = Some (c_code c)) ∧
       (usable (now env) c →
        discount_as_coded c (total_amount o) (discount_amount o) ∧
        used_once_more (c_id c) (coupons db) (coupons db') ∧
        (∃ c', c' ∈ coupons db' ∧ c_id c' = c_id c ∧
               uses_count c' = uses_count c + 1) ∧
        discount_amount o = coupon_discount (total_amount o) c ∧
        coupons db' = increment_uses (c_id c) (coupons db)) ∧
       (¬ usable (now env) c →
        o_coupon_code o = None ∧ discount_amount o = 0%Q ∧
        coupons db' = coupons db) ∧
       (max_uses c = Some (uses_count c) →
        discount_amount o = 0%Q ∧ coupons db' = coupons db).
Proof.
  intros Hnd Hin Hcc Hne H.
  apply place_order_cases in H as [[? _]|(sid & total & data & _ & Hv & _ & ->)];
    [done|].
  unfold committed_order. rewrite Hcc.
  eexists. split; [reflexivity|].
  unfold order_row; cbn [o_coupon_code discount_amount total_amount tables_after coupons].
  destruct (coupon_outcome_unique (now env) total db c Hnd Hin Hne)
    as [[Hu ->]|[Hu ->]]; cbn [co_coupon_code co_discount_amount co_applied].
  - split; [done|].
    split.
    { intros _. split; [apply coupon_discount_as_coded|].
      split; [apply increment_uses_used_once|].
      split; [|done].
      by apply (used_once_more_elem (c_id c) (coupons db));
        [apply increment_uses_used_once | |]. }
    split; [done|].
    intros Hm. destruct Hu as (_ & _ & [Hn|(m & Hm' & Hlt)]); [congruence|].
    rewrite Hm in Hm'. injection Hm' as <-. lia.
  - split; [split; [done | discriminate]|]. split; [done|]. split; done.
Qed.

Lemma coupon_ten_usable : usable (now quiet) coupon_ten.
Proof.
  split; [reflexivity|]. split; [by left|].
  right. exists 5. split; [reflexivity|]. cbn. lia.
Qed.

Lemma canteen_codes_unique : NoDup (map c_code (coupons canteen)).
Proof. apply (bool_decide_unpack _). vm_compute. reflexivity. Qed.

Lemma coupon_applied_iff_usable_witness :
  (usable (now quiet) coupon_ten ∧
   ∃ o, orders (snd (place_order quiet canteen lunch)) = orders canteen ++ [o] ∧
        o_coupon_code o = Some (c_code coupon_ten) ∧
        discount_as_coded coupon_ten (total_amount o) (discount_amount o) ∧
        used_once_more (c_id coupon_ten) (coupons canteen)
          (coupons (snd (place_order quiet canteen lunch))) ∧
        ∃ c', c' ∈ coupons (snd (place_order quiet canteen lunch)) ∧
              c_id c' = c_id coupon_ten ∧
              uses_count c' = uses_count coupon_ten + 1) ∧
  (max_uses coupon_done = Some (uses_count coupon_done) ∧
   ∃ o, orders (snd (place_order quiet canteen (cart [(1, 1)] (Some "DONE"%string))))
        = orders canteen ++ [o] ∧
        o_coupon_code o ≠ Some (c_code coupon_done) ∧
        discount_amount o = 0%Q ∧
        coupons (snd (place_order quiet canteen (cart [(1, 1)] (Some "DONE"%string))))
        = coupons canteen).
Proof.
  split.
  - split; [exact coupon_ten_usable|].
    destruct (coupon_applied_iff_usable quiet canteen lunch 7
                (snd (place_order quiet canteen lunch)) coupon_ten)
      as (o & Ho & Hiff & Happ & _).
    + exact canteen_codes_unique.
    + unfold canteen; cbn [coupons]. apply list_elem_of_here.
    + reflexivity.
    + discriminate.
    + vm_compute. reflexivity.
    + exists o. split; [exact Ho|].
      split; [exact (proj1 Hiff coupon_ten_usable)|].
      destruct (Happ coupon_ten_usable) as (Hd & Hall & Hrow & _).
      split; [exact Hd|]. split; [exact Hall | exact Hrow].
  - split; [reflexivity|].
    destruct (coupon_applied_iff_usable quiet canteen
                (cart [(1, 1)] (Some "DONE"%string)) 7
                (snd (place_order quiet canteen (cart [(1, 1)] (Some "DONE"%string))))
                coupon_done)
      as (o & Ho & Hiff & _ & _ & Hmax).
    + exact canteen_codes_unique.
    + unfold canteen; cbn [coupons].
      repeat first [apply list_elem_of_here | apply list_elem_of_further].
    + reflexivity.
    + discriminate.
    + vm_compute. reflexivity.
    + exists o. split; [exact Ho|].
      split.
      * intros Hcode. apply Hiff in Hcode as (_ & _ & [Hn|(m & Hm & Hlt)]).
        -- discriminate Hn.
        -- injection Hm as <-. cbn in Hlt. lia.
      * exact (Hmax eq_refl).
Defined.

(** ** Coupons that do not apply *)

Lemma coupon_outcome_unusable now cc total t :
  (∀ code c, cc = Some code → c ∈ coupons t → c_code c = code → ¬ usable now c) →
  co_applied (coupon_outcome now cc total t) = None ∧
  co_discount_amount (coupon_outcome now cc total t) = 0%Q.
Proof.
  intros Hno.
  destruct (co_applied (coupon_outcome now cc total t)) as [c|] eqn:Happ.
  - apply coupon_outcome_applied in Happ as (_ & _ & _ & Hv & code & Hcc & Hf).
    apply fetchone_select_coupon in Hf as (Hin & Hc & Hact).
    exfalso. apply (Hno code c Hcc Hin Hc). by apply coupon_valid_usable.
  - split; [done|]. by apply coupon_outcome_not_applied in Happ as [? _].
Qed.

(** C5. For a cart that passes the item checks, a supplied coupon code that
    is unknown, inactive, expired or used up (no coupon row with that code
    is usable) is not an error: without a database fault the order is
    placed, with discount [0], final amount equal to the subtotal, and no
    coupon row changed. *)
Theorem unusable_coupon_is_ignored env db req sid code :
  no_faults env →
  student_id req = Some sid → sid ≠ 0 → items req ≠ [] →
  Forall (line_ok (menu_items_db db req)) (items req) →
  coupon_code req = Some code →
  (∀ c, c ∈ coupons db → c_code c = code → ¬ usable (now env) c) →
  ∃ o db', place_order env db req = (OrderPlaced (lastrowid env), db') ∧
           orders db' = orders db ++ [o] ∧
           discount_amount o = 0%Q ∧
           (final_amount o == total_amount o)%Q ∧
           coupons db' = coupons db.
Proof.
  intros Hnf Hsid Hnz Hne Hok Hcc Hno.
  destruct (validate_items_ok (menu_items_db db req) (items req) 0%Q [] Hok)
    as (total & data & Hv).
  rewrite (place_order_commits env db req sid total data) by done.
  do 2 eexists. split; [reflexivity|].
  unfold committed_order.
  destruct (coupon_outcome_unusable (now env) (coupon_code req) total db)
    as [Happ Hd].
  { intros code' c Hcode'. rewrite Hcc in Hcode'. injection Hcode' as <-.
    apply Hno. }
  rewrite Happ. split; [reflexivity|].
  unfold order_row; cbn [discount_amount final_amount total_amount tables_after coupons].
  rewrite Hd. split; [done|]. split; [|done]. ring.
Qed.

Lemma unusable_coupon_is_ignored_witness :
  ∃ o db', place_order quiet canteen (cart [(1, 2); (3, 1)] (Some "OLD"%string))
           = (OrderPlaced (lastrowid quiet), db') ∧
           orders db' = orders canteen ++ [o] ∧
           discount_amount o = 0%Q ∧
           (final_amount o == total_amount o)%Q ∧
           coupons db' = coupons canteen.
Proof.
  apply (unusable_coupon_is_ignored quiet canteen
           (cart [(1, 2); (3, 1)] (Some "OLD"%string)) 3 "OLD").
  - split; [reflexivity | intros s; reflexivity].
  - reflexivity.
  - lia.
  - discriminate.
  - repeat first [apply List.Forall_nil | apply List.Forall_cons].
    + eexists. split; [vm_compute; reflexivity|]. split; [reflexivity | cbn; lia].
    + eexists. split; [vm_compute; reflexivity|]. split; [reflexivity | cbn; lia].
  - reflexivity.
  - intros c Hin Hc (_ & Hexp & _).
    unfold canteen in Hin; cbn [coupons] in Hin.
    repeat (apply elem_of_cons in Hin as [->|Hin]; [try discriminate Hc|]).
    + destruct Hexp as [Hn|(t & Ht & Hlt)]; [discriminate Hn|].
      injection Ht as <-. cbn in Hlt. lia.
    + by apply elem_of_nil in Hin.
Defined.

(** The same cart with a code no coupon row carries. *)
Example unknown_coupon_is_ignored :
  ∃ o, place_order quiet canteen (cart [(1, 2)] (Some "NOPE"%string))
       = (OrderPlaced 7, tables_after canteen o
            [{| oi_order_id := 7; oi_menu_item_id := 1; oi_quantity := 2;
                price_at_order := 100 # 1 |}] None) ∧
       discount_amount o = 0%Q ∧ (final_amount o == total_amount o)%Q.
Proof. eexists. split; [vm_compute; reflexivity|]. by vm_compute. Qed.

(** An inactive coupon and a used-up coupon are ignored in the same way. *)
Example inactive_coupon_is_ignored :
  ∃ o, orders (snd (place_order quiet canteen (cart [(1, 2)] (Some "OFF"%string)))) = [o] ∧
       fst (place_order quiet canteen (cart [(1, 2)] (Some "OFF"%string))) = OrderPlaced 7 ∧
       o_coupon_code o = None ∧ discount_amount o = 0%Q ∧
       (final_amount o == 200)%Q ∧
       coupons (snd (place_order quiet canteen (cart [(1, 2)] (Some "OFF"%string))))
       = coupons canteen.
Proof.
  eexists. split; [vm_compute; reflexivity|].
  repeat split; vm_compute; reflexivity.
Qed.

Example used_up_coupon_is_ignored :
  ∃ o, orders (snd (place_order quiet canteen (cart [(1, 2)] (Some "DONE"%string)))) = [o] ∧
       fst (place_order quiet canteen (cart [(1, 2)] (Some "DONE"%string))) = OrderPlaced 7 ∧
       o_coupon_code o = None ∧ discount_amount o = 0%Q ∧
       (final_amount o == 200)%Q ∧
       coupons (snd (place_order quiet canteen (cart [(1, 2)] (Some "DONE"%string))))
       = coupons canteen.
Proof.
  eexists. split; [vm_compute; reflexivity|].
  repeat split; vm_compute; reflexivity.
Qed.

(** ** Subtotal and order lines *)

Lemma priced_order_lines db req oid its new :
  (∀ l, l ∈ its → l ∈ items req) →
  Forall2 (line_priced (menu_items_db db req)) its new →
  Forall2 (fun l row =>
             oi_order_id row = oid ∧
             oi_menu_item_id row = menu_item_id l ∧
             oi_quantity row = quantity l ∧
             ∃ mi, mi ∈ menu_items db ∧ mi_id mi = menu_item_id l ∧
                   rows_by_id (menu_items db) !! menu_item_id l = Some mi ∧
                   price_at_order row = mi_price mi)
          its (map (order_item_row oid) new).
Proof.
  intros Hsub Hall.
  induction Hall as [|l d its new (Hid & Hq & mi & Hlk & _ & _ & Hp) _ IH];
    simpl; constructor.
  - cbn. repeat (split; [done|]).
    exists mi. pose proof Hlk as Hlk'.
    apply menu_items_db_elem in Hlk' as [Hmem Hk].
    rewrite menu_items_db_lookup in Hlk by (apply Hsub; apply list_elem_of_here).
    done.
  - apply IH. intros l' Hin. apply Hsub. by apply list_elem_of_further.
Qed.

(** C6. For a placed order the recorded subtotal is the sum over the cart
    lines of catalog price times quantity, and the new order lines are in
    one-to-one correspondence with the cart lines, in cart order (so two
    lines for the same menu item give two rows): each row carries the
    order id, the line's item id and quantity, and as [price_at_order] the
    price of that item in the catalog at the time of the call. *)
Theorem subtotal_and_order_lines env db req oid db' :
  place_order env db req = (OrderPlaced oid, db') →
  ∃ o rows,
    orders db' = orders db ++ [o] ∧
    order_items db' = order_items db ++ rows ∧
    Forall2 (fun l row =>
               oi_order_id row = oid ∧
               oi_menu_item_id row = menu_item_id l ∧
               oi_quantity row = quantity l ∧
               ∃ mi, mi ∈ menu_items db ∧ mi_id mi = menu_item_id l ∧
                     rows_by_id (menu_items db) !! menu_item_id l = Some mi ∧
                     price_at_order row = mi_price mi)
            (items req) rows ∧
    (total_amount o == lines_total rows)%Q.
Proof.
  intros H.
  apply place_order_cases in H as [[? _]|(sid & total & data & _ & Hv & [= ->] & ->)];
    [done|].
  do 2 eexists. split; [reflexivity|]. split; [reflexivity|].
  apply validate_items_inr in Hv as (new & Hd & Hsum & Hall). simpl in Hd. subst data.
  cbn [order_row total_amount]. split.
  - by apply (priced_order_lines db req).
  - rewrite Hsum. clear Hall Hsum.
    induction new as [|d new IH]; simpl; [lra|].
    simpl in IH. lra.
Qed.

Lemma subtotal_and_order_lines_witness :
  ∃ o rows,
    orders (snd (place_order quiet canteen (cart [(1, 1); (3, 2); (1, 1)] None)))
    = orders canteen ++ [o] ∧
    order_items (snd (place_order quiet canteen (cart [(1, 1); (3, 2); (1, 1)] None)))
    = order_items canteen ++ rows ∧
    Forall2 (fun l row =>
               oi_order_id row = 7 ∧
               oi_menu_item_id row = menu_item_id l ∧
               oi_quantity row = quantity l ∧
               ∃ mi, mi ∈ menu_items canteen ∧ mi_id mi = menu_item_id l ∧
                     rows_by_id (menu_items canteen) !! menu_item_id l = Some mi ∧
                     price_at_order row = mi_price mi)
            (items (cart [(1, 1); (3, 2); (1, 1)] None)) rows ∧
    (total_amount o == lines_total rows)%Q.
Proof.
  apply (subtotal_and_order_lines quiet canteen (cart [(1, 1); (3, 2); (1, 1)] None)).
  vm_compute. reflexivity.
Defined.

(** Two lines for the same item give two rows, and the subtotal counts both. *)
Example repeated_item_lines :
  ∃ o, place_order quiet canteen (cart [(1, 1); (3, 2); (1, 1)] None)
       = (OrderPlaced 7,
          tables_after canteen o
            [ {| oi_order_id := 7; oi_menu_item_id := 1; oi_quantity := 1;
                 price_at_order := 100 # 1 |};
              {| oi_order_id := 7; oi_menu_item_id := 3; oi_quantity := 2;
                 price_at_order := 30 # 1 |};
              {| oi_order_id := 7; oi_menu_item_id := 1; oi_quantity := 1;
                 price_at_order := 100 # 1 |} ] None) ∧
       (total_amount o == 260)%Q.
Proof. eexists. split; [vm_compute; reflexivity|]. by vm_compute. Qed.

(** ** Which failure a rejected cart gets *)







Example unknown_item_rejected :
  place_order quiet canteen (cart [(1, 1); (99, 1); (2, 1)] (Some "TEN"%string))
  = (ItemNotFound 99, canteen).
Proof. vm_compute. reflexivity. Qed.

Example unavailable_item_rejected :
  place_order quiet canteen (cart [(1, 1); (2, 1)] (Some "TEN"%string))
  = (ItemUnavailable "Bun", canteen).
Proof. vm_compute. reflexivity. Qed.




Example zero_quantity_rejected :
  place_order quiet canteen (cart [(3, 2); (1, 0)] (Some "TEN"%string))
  = (InvalidQuantity 1, canteen).
Proof. vm_compute. reflexivity. Qed.

Example negative_quantity_rejected :
  place_order quiet canteen (cart [(1, -2)] None) = (InvalidQuantity 1, canteen).
Proof. vm_compute. reflexivity. Qed.

(** ** The coupon code recorded on the header *)

(** X29. For a non-empty supplied code, the header of a placed order carries
    the code if and only if the first active coupon row with that code is
    usable at the call. When it is, the recorded discount is the one the
    columns of that row give on the subtotal and its [uses_count] is raised
    by exactly one, nothing else changing in the coupon table; when it is
    not (no active row with the code, or one that is expired or used up),
    the code is cleared, the discount is [0] and the coupon table is as
    before. *)
Lemma recorded_code_means_applied env db req oid db' code :
  coupon_code req = Some code → code ≠ EmptyString →
  place_order env db req = (OrderPlaced oid, db') →
  ∃ o, orders db' = orders db ++ [o] ∧
       (o_coupon_code o = Some code ↔
        ∃ c, first_active code (coupons db) c ∧ usable (now env) c) ∧
       (∀ c, first_active code (coupons db) c → usable (now env) c →
          o_coupon_code o = Some code ∧
          discount_as_coded c (total_amount o) (discount_amount o) ∧
          used_once_more (c_id c) (coupons db) (coupons db') ∧
          ∃ c', c' ∈ coupons db' ∧ c_id c' = c_id c ∧
                uses_count c' = uses_count c + 1) ∧
       ((¬ ∃ c, first_active code (coupons db) c ∧ usable (now env) c) →
        o_coupon_code o = None ∧ discount_amount o = 0%Q ∧
        coupons db' = coupons db) ∧
       (o_coupon_code o = None ∧ discount_amount o = 0%Q ∧ coupons db' = coupons db
        ∨ ∃ c, o_coupon_code o = Some code ∧ c ∈ coupons db ∧ c_code c = code ∧
               usable (now env) c ∧
               discount_amount o = coupon_discount (total_amount o) c ∧
               coupons db' = increment_uses (c_id c) (coupons db)).
Proof.
  intros Hcc Hne H.
  apply place_order_cases in H as [[? _]|(sid & total & data & _ & Hv & _ & ->)];
    [done|].
  unfold committed_order. eexists. split; [reflexivity|].
  unfold order_row; cbn [o_coupon_code discount_amount total_amount tables_after coupons].
  destruct (coupon_outcome_effect (now env) (coupon_code req) total db)
    as [(Happ & Hcode & Hdisc & Hnone)
       |(c & Happ & Hcc' & Hne' & Hfirst & Hu & Hcode & Hdisc)];
    rewrite Happ.
  - assert (Hno : ¬ ∃ c, first_active code (coupons db) c ∧ usable (now env) c).
    { intros (c & Hfirst & Hu). apply Hnone. exists c.
      pose proof Hfirst as (_ & _ & _ & Hc & _). rewrite Hc.
      split; [done|]. split; [done|]. split; done. }
    assert (Hnull : co_coupon_code (coupon_outcome (now env) (coupon_code req) total db)
                    = None).
    { apply coupon_outcome_not_applied in Happ as [_ Hn]. apply Hn.
      rewrite Hcc. by apply truthy_str_true. }
    rewrite Hnull, Hdisc.
    split; [split; [discriminate | intros Hex; by destruct Hno]|].
    split; [intros c Hfirst Hu; destruct Hno; by exists c|].
    split; [done|]. by left.
  - rewrite Hcc in Hcc'. injection Hcc' as ->.
    assert (Hin : c ∈ coupons db).
    { destruct Hfirst as (pre & post & -> & _). apply elem_of_app. right.
      apply list_elem_of_here. }
    rewrite Hcode, Hdisc.
    split; [split; [intros _; by exists c | done]|].
    split.
    { intros c0 Hfirst0 Hu0.
      assert (c0 = c) as ->.
      { apply fetchone_first_active in Hfirst0, Hfirst. congruence. }
      split; [done|]. split; [apply coupon_discount_as_coded|].
      split; [apply increment_uses_used_once|].
      by apply (used_once_more_elem (c_id c) (coupons db));
        [apply increment_uses_used_once | |]. }
    split; [intros Hno; destruct Hno; by exists c|].
    right. exists c. done.
Qed.

Lemma recorded_code_means_applied_witness :
  first_active "FIFTY" (coupons canteen) coupon_fifty ∧
  usable (now quiet) coupon_fifty ∧
  ∃ o, orders (snd (place_order quiet canteen (cart [(3, 1)] (Some "FIFTY"%string))))
       = orders canteen ++ [o] ∧
       o_coupon_code o = Some "FIFTY"%string ∧
       discount_as_coded coupon_fifty (total_amount o) (discount_amount o) ∧
       used_once_more (c_id coupon_fifty) (coupons canteen)
         (coupons (snd (place_order quiet canteen (cart [(3, 1)] (Some "FIFTY"%string))))) ∧
       ∃ c', c' ∈ coupons (snd (place_order quiet canteen
                                  (cart [(3, 1)] (Some "FIFTY"%string)))) ∧
             c_id c' = c_id coupon_fifty ∧
             uses_count c' = uses_count coupon_fifty + 1.
Proof.
  assert (Hfirst : first_active "FIFTY" (coupons canteen) coupon_fifty).
  { apply fetchone_first_active. reflexivity. }
  assert (Hu : usable (now quiet) coupon_fifty).
  { split; [reflexivity|]. split; [|by left].
    right. exists 200. split; [reflexivity|]. cbn. lia. }
  split; [exact Hfirst|]. split; [exact Hu|].
  destruct (recorded_code_means_applied quiet canteen
              (cart [(3, 1)] (Some "FIFTY"%string)) 7
              (snd (place_order quiet canteen (cart [(3, 1)] (Some "FIFTY"%string))))
              "FIFTY")
    as (o & Ho & _ & Happ & _).
  - reflexivity.
  - discriminate.
  - vm_compute. reflexivity.
  - exists o. split; [exact Ho|]. exact (Happ coupon_fifty Hfirst Hu).
Defined.

(** C10 at the failing input: a request whose [coupon_code] is the empty
    string. The coupon block is skipped ([if coupon_code:] is false), the
    code is not cleared, and the header is written with the empty string
    as its coupon code, a value that is not NULL, although no coupon was
    applied: the discount is [0] and no coupon row changed. *)
Lemma empty_coupon_code_is_recorded :
  ∃ o, place_order quiet canteen (cart [(1, 2)] (Some EmptyString))
       = (OrderPlaced 7,
          tables_after canteen o
            [{| oi_order_id := 7; oi_menu_item_id := 1; oi_quantity := 2;
                price_at_order := 100 # 1 |}] None) ∧
       o_coupon_code o = Some EmptyString ∧
       o_coupon_code o ≠ None ∧
       discount_amount o = 0%Q.
Proof.
  eexists. split; [vm_compute; reflexivity|].
  split; [reflexivity|]. split; [discriminate | reflexivity].
Qed.

(** ** Requests served one after the other *)

Lemma same_id_same_row (cs : list Coupon) c1 c2 :
  NoDup (map c_id cs) → c1 ∈ cs → c2 ∈ cs → c_id c1 = c_id c2 → c1 = c2.
Proof.
  induction cs as [|x cs IH]; intros Hnd H1 H2 Hid; [by apply elem_of_nil in H1|].
  simpl in Hnd. apply NoDup_cons in Hnd as [Hx Hnd].
  apply elem_of_cons in H1 as [->|H1]; apply elem_of_cons in H2 as [->|H2].
  - done.
  - exfalso. apply Hx. rewrite Hid. apply list_elem_of_fmap. by exists c2.
  - exfalso. apply Hx. rewrite <- Hid. apply list_elem_of_fmap. by exists c1.
  - by apply IH.
Qed.

Lemma increment_uses_ids id cs :
  map c_id (increment_uses id cs) = map c_id cs.
Proof.
  unfold increment_uses. induction cs as [|x cs IH]; simpl; [done|].
  rewrite IH. by destruct (c_id x =? id).
Qed.

(** One request keeps every coupon within its [max_uses], when coupon ids
    are unique. *)
Lemma place_order_within_max env db req r db' :
  NoDup (map c_id (coupons db)) → within_max db →
  place_order env db req = (r, db') →
  NoDup (map c_id (coupons db')) ∧ within_max db'.
Proof.
  intros Hnd Hinv H.
  apply place_order_cases in H as [[_ ->]|(sid & total & data & _ & _ & _ & ->)];
    [done|].
  unfold committed_order, within_max; cbn [tables_after coupons].
  destruct (co_applied (coupon_outcome (now env) (coupon_code req) total db))
    as [c|] eqn:Happ; [|done].
  apply coupon_outcome_applied in Happ as (_ & _ & _ & Hvalid & code & _ & Hf).
  apply fetchone_select_coupon in Hf as (Hin & _ & Hact).
  apply coupon_valid_usable in Hvalid as (_ & _ & Hmax); [|done].
  split; [by rewrite increment_uses_ids|].
  intros c' m Hin' Hm.
  apply list_elem_of_fmap in Hin' as (c0 & -> & Hin0).
  destruct (Z.eqb_spec (c_id c0) (c_id c)) as [Heq|_]; [|by apply (Hinv c0)].
  assert (c0 = c) as -> by (by apply (same_id_same_row (coupons db))).
  cbn in Hm |- *. destruct Hmax as [Hn|(m' & Hm' & Hlt)]; [congruence|].
  rewrite Hm in Hm'. injection Hm' as <-. lia.
Qed.

(** X6. Served one after the other, requests never push a coupon past its
    ceiling: if coupon ids are unique and every coupon with a [max_uses]
    has [uses_count <= max_uses], the same holds after any list of
    [place_order] calls, whatever each of them asks for and whatever fails. *)
Lemma serve_within_max calls : ∀ db,
  NoDup (map c_id (coupons db)) → within_max db →
  within_max (serve db calls).
Proof.
  induction calls as [|[env req] calls IH]; intros db Hnd Hinv; simpl; [done|].
  destruct (place_order env db req) as [r db'] eqn:E. simpl.
  destruct (place_order_within_max env db req r db' Hnd Hinv E). by apply IH.
Qed.

(** ** Requests that overlap *)

(** Without a database fault, [place_order] is its reads followed by its
    writes, both on the tables it is called on. *)
Lemma place_order_reads_then_writes env db req :
  no_faults env →
  place_order env db req =
    match read_phase env db req with
    | inl r => (r, db)
    | inr p => (OrderPlaced (o_id (pl_order p)), write_phase p db)
    end.
Proof.
  intros Hnf. unfold read_phase.
  destruct (student_id req) as [sid|] eqn:Hsid.
  2:{ unfold place_order. by rewrite Hsid. }
  destruct (negb (truthy_id (Some sid)) || bool_decide (items req = [])) eqn:Hbad.
  { unfold place_order. by rewrite Hsid, Hbad. }
  apply orb_false_iff in Hbad as [Hid Hit].
  apply negb_false_iff in Hid. apply bool_decide_eq_false in Hit.
  assert (Hnz : sid ≠ 0) by (intros ->; discriminate Hid).
  destruct (validate_items (menu_items_db db req) (items req) 0%Q [])
    as [resp|[total data]] eqn:Hv.
  - apply (place_order_rejects env db req sid); try done; apply Hnf.
  - by rewrite (place_order_commits env db req sid total data).
Qed.

(** A request that overlaps with no other is served as [place_order]
    serves it. *)
Lemma overlapped_alone env db req :
  no_faults env →
  overlapped db [(env, req)]
  = ([fst (place_order env db req)], snd (place_order env db req)).
Proof.
  intros Hnf. rewrite place_order_reads_then_writes by done.
  unfold overlapped. simpl. by destruct (read_phase env db req).
Qed.

(** Two overlapping requests that both found the coupon [c] valid count it
    twice, whatever its [max_uses]. *)
Lemma overlapped_counts_twice env1 req1 env2 req2 db p1 p2 c :
  read_phase env1 db req1 = inr p1 → read_phase env2 db req2 = inr p2 →
  pl_applied p1 = Some c → pl_applied p2 = Some c →
  coupons (snd (overlapped db [(env1, req1); (env2, req2)]))
  = increment_uses (c_id c) (increment_uses (c_id c) (coupons db)) ∧
  orders (snd (overlapped db [(env1, req1); (env2, req2)]))
  = orders db ++ [pl_order p1; pl_order p2].
Proof.
  intros H1 H2 Ha1 Ha2. unfold overlapped. simpl. rewrite H1, H2.
  unfold write_phase, tables_after; cbn [coupons orders snd].
  rewrite Ha1, Ha2. split; [done|]. by rewrite <- app_assoc.
Qed.

Lemma canteen_once_within_max : within_max canteen_once.
Proof.
  intros c m Hin Hm. unfold canteen_once in Hin; cbn [coupons] in Hin.
  apply list_elem_of_singleton in Hin as ->.
  cbn in Hm |- *. injection Hm as <-. lia.
Qed.

(** C9 at the failing input. The coupon ONCE may be used once and has not
    been used; the tables respect every ceiling. Two students send the code
    at the same time, so that both requests have read the coupon row before
    either has written. Both are answered with a success, both headers
    carry the code and a discount, and the coupon row is left with
    [uses_count = 2] above its [max_uses = 1]: both orders applied the
    discount and the ceiling is passed. *)
Theorem overlapped_orders_pass_max_uses :
  within_max canteen_once ∧
  fst (overlapped canteen_once two_at_once) = [OrderPlaced 7; OrderPlaced 8] ∧
  (∃ o1 o2 c,
     orders (snd (overlapped canteen_once two_at_once)) = [o1; o2] ∧
     o_coupon_code o1 = Some "ONCE"%string ∧
     (total_amount o1 == 200)%Q ∧ (discount_amount o1 == 20)%Q ∧
     o_coupon_code o2 = Some "ONCE"%string ∧
     (total_amount o2 == 30)%Q ∧ (discount_amount o2 == 3)%Q ∧
     coupons (snd (overlapped canteen_once two_at_once)) = [c] ∧
     c_id c = c_id coupon_once ∧ max_uses c = Some 1 ∧ uses_count c = 2) ∧
  ¬ within_max (snd (overlapped canteen_once two_at_once)).
Proof.
  split; [exact canteen_once_within_max|].
  split; [vm_compute; reflexivity|].
  split.
  - do 3 eexists. split; [vm_compute; reflexivity|].
    split; [reflexivity|]. split; [by vm_compute|]. split; [by vm_compute|].
    split; [reflexivity|]. split; [by vm_compute|]. split; [by vm_compute|].
    split; [vm_compute; reflexivity|]. done.
  - intros Hmax.
    specialize (Hmax (use_once (use_once coupon_once)) 1).
    assert (Hle : uses_count (use_once (use_once coupon_once)) ≤ 1).
    { apply Hmax; [|reflexivity].
      replace (coupons (snd (overlapped canteen_once two_at_once)))
        with [use_once (use_once coupon_once)] by (vm_compute; reflexivity).
      apply list_elem_of_here. }
    cbn in Hle. lia.
Qed.

(** Each of the two requests, served alone on these tables, is served as
    [place_order] serves it, and applies the coupon. *)
Example each_alone_applies_once :
  Forall (fun call =>
            overlapped canteen_once [call]
            = ([fst (place_order (fst call) canteen_once (snd call))],
               snd (place_order (fst call) canteen_once (snd call))) ∧
            coupons (snd (place_order (fst call) canteen_once (snd call)))
            = [use_once coupon_once])
    two_at_once.
Proof.
  repeat first [apply List.Forall_nil | apply List.Forall_cons].
  all: split; [apply overlapped_alone; split; [reflexivity | intros s; reflexivity]
              | vm_compute; reflexivity].
Qed.

(** The same two requests, the second served when the first is done: the
    second finds the coupon used up, and the ceiling holds. *)
Example one_after_the_other_applies_once :
  ∃ o1 o2 c,
    orders (serve canteen_once two_at_once) = [o1; o2] ∧
    o_coupon_code o1 = Some "ONCE"%string ∧ (discount_amount o1 == 20)%Q ∧
    o_coupon_code o2 = None ∧ discount_amount o2 = 0%Q ∧
    coupons (serve canteen_once two_at_once) = [c] ∧
    max_uses c = Some 1 ∧ uses_count c = 1.
Proof.
  do 3 eexists. split; [vm_compute; reflexivity|].
  split; [reflexivity|]. split; [by vm_compute|].
  split; [reflexivity|]. split; [reflexivity|].
  split; [vm_compute; reflexivity|]. done.
Qed.

(** ** Every response has its cause *)

Lemma validate_items_cause m its : ∀ total acc r,
  validate_items m its total acc = inl r →
  match r with
  | ItemNotFound id => ∃ l, l ∈ its ∧ menu_item_id l = id ∧ m !! id = None
  | ItemUnavailable name =>
      ∃ l mi, l ∈ its ∧ m !! menu_item_id l = Some mi ∧
              mi_is_available mi = false ∧ mi_name mi = name
  | InvalidQuantity id =>
      ∃ l mi, l ∈ its ∧ menu_item_id l = id ∧ m !! id = Some mi ∧
              mi_is_available mi = true ∧ quantity l ≤ 0
  | _ => False
  end.
Proof.
  induction its as [|l its IH]; intros total acc r H; simpl in H; [discriminate|].
  destruct (m !! menu_item_id l) as [mi|] eqn:Hlk.
  - destruct (mi_is_available mi) eqn:Hav; simpl in H.
    + destruct (Z.leb_spec (quantity l) 0) as [Hle|Hgt].
      * injection H as <-. exists l, mi.
        repeat split; try done. apply list_elem_of_here.
      * apply IH in H. destruct r; try done.
        -- destruct H as (l' & Hin & ?). exists l'.
           split; [by apply list_elem_of_further | done].
        -- destruct H as (l' & mi' & Hin & ?). exists l', mi'.
           split; [by apply list_elem_of_further | done].
        -- destruct H as (l' & mi' & Hin & ?). exists l', mi'.
           split; [by apply list_elem_of_further | done].
    + injection H as <-. exists l, mi.
      repeat split; try done. apply list_elem_of_here.
  - injection H as <-. exists l. repeat split; try done. apply list_elem_of_here.
Qed.

Lemma validate_items_all_ok m its total acc total' acc' :
  validate_items m its total acc = inr (total', acc') → Forall (line_ok m) its.
Proof.
  intros H. apply validate_items_inr in H as (new & _ & _ & Hall).
  induction Hall as [|l d its new (_ & _ & mi & ? & ? & ? & _) _ IH];
    constructor; [by exists mi | done].
Qed.

Lemma place_order_cause env db req r db' :
  place_order env db req = (r, db') → response_cause env db req r.
Proof.
  unfold place_order. intros H.
  destruct (student_id req) as [sid|] eqn:Hsid.
  2:{ injection H as <- <-. cbn. rewrite Hsid. by left. }
  destruct (negb (truthy_id (Some sid))) eqn:Htr; simpl in H.
  { apply negb_true_iff in Htr. injection H as <- <-. cbn. rewrite Hsid. by left. }
  apply negb_false_iff in Htr.
  destruct (bool_decide (items req = [])) eqn:Hit.
  { apply bool_decide_eq_true in Hit. injection H as <- <-. cbn. by right. }
  apply bool_decide_eq_false in Hit.
  destruct (connect_ok env) eqn:Hconn; simpl in H; [|raised H].
  unfold try_except, place_order_try in H.
  destruct (bool_decide (map menu_item_id (items req) = [])) eqn:Hids.
  { apply bool_decide_eq_true in Hids. destruct (items req); done. }
  unfold bind at 1 in H. unfold execute at 1 in H.
  destruct (raises env SelectMenuItems) as [[]|] eqn:Hq1; [raised H|raised H|].
  cbn [working committed] in H.
  fold (menu_items_db db req) in H.
  destruct (validate_items (menu_items_db db req) (items req) 0%Q [])
    as [resp|[total data]] eqn:Hv.
  { apply validate_items_cause in Hv. cbn in H. injection H as <- <-.
    destruct resp; cbn; try done. }
  apply validate_items_all_ok in Hv.
  unfold bind at 1 in H. rewrite apply_coupon_run in H.
  cbn [working committed] in H.
  set (co := coupon_outcome (now env) (coupon_code req) total db) in *.
  assert (Hrun : (let '(r, c) :=
     match
       (execute env InsertOrder
         (fun t => (tt, insert_order (order_row (lastrowid env) sid total co) t)) ;;;
        execute env InsertOrderItems
         (fun t => (tt, insert_order_items
                          (map (order_item_row (lastrowid env)) data) t)) ;;;
        (match co_applied co with
         | Some c =>
            if truthy_str (co_coupon_code co)
            then execute env UpdateCoupon (fun t => (tt, update_coupon (c_id c) t))
            else ret tt
         | None => ret tt
         end) ;;;
        commit env ;;;
        return_ (OrderPlaced (lastrowid env)))%txn
       {| committed := db; working := db |}
     with
     | (Ok r, c') => (r, c')
     | (Return r, c') => (r, c')
     | (Raise DbError, c') => (FailedToPlaceOrder, snd (rollback c'))
     | (Raise OtherException, c') => (UnexpectedError, snd (rollback c'))
     end in (r, committed c)) = (r, db')
     ∨ response_cause env db req r).
  { destruct (coupon_code req) as [code|];
      [destruct (truthy_str (Some code));
       [destruct (raises env SelectCoupon) as [[]|] eqn:Hq2|]|].
    all: first [ by left | right; raised H ]. }
  clear H. destruct Hrun as [H|H]; [|done].
  unfold bind, execute, commit, return_, ret in H; cbn [working committed] in H.
  destruct (raises env InsertOrder) as [[]|] eqn:Hq3; [raised H|raised H|].
  destruct (raises env InsertOrderItems) as [[]|] eqn:Hq4; [raised H|raised H|].
  assert (Hdone : raises env Commit = None → response_cause env db req (OrderPlaced (lastrowid env))).
  { intros Hq6. cbn. rewrite Hsid. done. }
  destruct (co_applied co) as [c|] eqn:Happ.
  - destruct (truthy_str (co_coupon_code co)).
    + destruct (raises env UpdateCoupon) as [[]|] eqn:Hq5; [raised H|raised H|].
      cbn [working committed] in H.
      destruct (raises env Commit) as [[]|] eqn:Hq6; [raised H|raised H|].
      cbn in H. injection H as <- <-. by apply Hdone.
    + destruct (raises env Commit) as [[]|] eqn:Hq6; [raised H|raised H|].
      cbn in H. injection H as <- <-. by apply Hdone.
  - destruct (raises env Commit) as [[]|] eqn:Hq6; [raised H|raised H|].
    cbn in H. injection H as <- <-. by apply Hdone.
Qed.

(** X1. [place_order] answers "Missing student ID or items" exactly when the
    requester id is absent or zero, or the cart is empty; it does so before the
    connection is opened, so the tables are untouched whatever the database
    would have done. *)
Theorem missing_requester_or_empty_cart env db req :
  (fst (place_order env db req) = MissingStudentOrItems ↔
   truthy_id (student_id req) = false ∨ items req = []) ∧
  (truthy_id (student_id req) = false ∨ items req = [] →
   place_order env db req = (MissingStudentOrItems, db)).
Proof.
  assert (Hback : truthy_id (student_id req) = false ∨ items req = [] →
                  place_order env db req = (MissingStudentOrItems, db)).
  { intros Hbad. unfold place_order.
    destruct (student_id req) as [sid|]; [|done].
    destruct Hbad as [->| ->]; [done|].
    by rewrite orb_true_r. }
  split; [|done]. split.
  - intros Hr. destruct (place_order env db req) as [r db'] eqn:E.
    apply place_order_cause in E. simpl in Hr. by subst r.
  - intros Hbad. by rewrite Hback.
Qed.

(** X2. The response "No items in order" of the [try] block is never given:
    an empty cart is already answered by the test on the request. *)
Theorem no_items_in_order_unreachable env db req :
  fst (place_order env db req) ≠ NoItemsInOrder.
Proof.
  intros Hr. destruct (place_order env db req) as [r db'] eqn:E.
  apply place_order_cause in E. simpl in Hr. by subst r.
Qed.

Lemma fold_insert_none (rows : list MenuItem) : ∀ (m0 : gmap Z MenuItem) k,
  fold_left (fun m r => <[mi_id r := r]> m) rows m0 !! k = None →
  m0 !! k = None ∧ ∀ mi, mi ∈ rows → mi_id mi ≠ k.
Proof.
  induction rows as [|r rows IH]; intros m0 k H; simpl in H.
  - split; [done|]. intros mi Hin. by apply elem_of_nil in Hin.
  - apply IH in H as [Hm Hrows].
    destruct (decide (mi_id r = k)) as [<-|Hne].
    + by rewrite lookup_insert_eq in Hm.
    + rewrite lookup_insert_ne in Hm by done. split; [done|].
      intros mi Hin. apply elem_of_cons in Hin as [->|Hin]; [done | by apply Hrows].
Qed.

(** X3. The item failures name a real defect of the cart. [ItemNotFound id]
    is answered only if a cart line has this id and no row of the catalog
    has it; [ItemUnavailable name] only if a cart line resolves to a catalog
    row of that name that is not available; the invalid-quantity failure
    only if a line with this id has a quantity that is zero or negative. *)
Theorem item_failures_are_justified env db req :
  match fst (place_order env db req) with
  | ItemNotFound id =>
      ∃ l, l ∈ items req ∧ menu_item_id l = id ∧
           ∀ mi, mi ∈ menu_items db → mi_id mi ≠ id
  | ItemUnavailable name =>
      ∃ l mi, l ∈ items req ∧ mi ∈ menu_items db ∧
              mi_id mi = menu_item_id l ∧
              mi_is_available mi = false ∧ mi_name mi = name
  | InvalidQuantity id =>
      ∃ l, l ∈ items req ∧ menu_item_id l = id ∧ quantity l ≤ 0
  | _ => True
  end.
Proof.
  destruct (place_order env db req) as [r db'] eqn:E.
  apply place_order_cause in E. simpl. destruct r; try done; cbn in E.
  - destruct E as (l & Hin & Hid & Hnone). exists l.
    repeat (split; [done|]).
    rewrite <- Hid, menu_items_db_lookup in Hnone by done.
    apply fold_insert_none in Hnone as [_ Hrows]. by rewrite <- Hid.
  - destruct E as (l & mi & Hin & Hlk & Hav & Hn). exists l, mi.
    apply menu_items_db_elem in Hlk as [Hmem Hk]. done.
  - destruct E as (l & mi & Hin & Hid & _ & _ & Hq). by exists l.
Qed.

Lemma increment_uses_step id cs :
  Forall2 coupon_step cs (increment_uses id cs).
Proof.
  unfold increment_uses. induction cs as [|c cs IH]; simpl; constructor; [|done].
  destruct (c_id c =? id); [by right | by left].
Qed.

Lemma coupon_step_refl cs : Forall2 coupon_step cs cs.
Proof. induction cs; constructor; [by left | done]. Qed.

(** X5. [place_order] only appends. Whatever the request and whatever the
    database does, the catalog is unchanged, the orders and order lines of
    before are still there, in place and unaltered, with at most one order
    header added, and every coupon row is the row of before or that row
    with [uses_count] raised by one: no use is ever given back. *)
Theorem place_order_only_appends env db req :
  menu_items (snd (place_order env db req)) = menu_items db ∧
  (∃ new, orders (snd (place_order env db req)) = orders db ++ new ∧
          (length new ≤ 1)%nat) ∧
  (∃ rows, order_items (snd (place_order env db req)) = order_items db ++ rows) ∧
  Forall2 coupon_step (coupons db) (coupons (snd (place_order env db req))).
Proof.
  destruct (place_order env db req) as [r db'] eqn:E. simpl.
  apply place_order_cases in E as [[_ ->]|(sid & total & data & _ & _ & _ & ->)].
  - split; [done|].
    split; [exists []; split; [by rewrite app_nil_r | simpl; lia]|].
    split; [exists []; by rewrite app_nil_r|]. apply coupon_step_refl.
  - unfold committed_order, tables_after; cbn.
    split; [done|]. split; [eexists; split; [done | simpl; lia]|].
    split; [by eexists|].
    destruct (co_applied _); [apply increment_uses_step | apply coupon_step_refl].
Qed.

Lemma canteen_within_max : within_max canteen.
Proof.
  intros c m Hin Hm. unfold canteen in Hin; cbn [coupons] in Hin.
  repeat (apply elem_of_cons in Hin as [->|Hin];
          [cbn in Hm |- *; try discriminate Hm; try (injection Hm as <-; lia)|]).
  by apply elem_of_nil in Hin.
Qed.

Lemma serve_within_max_witness :
  within_max (serve canteen
                [(quiet, cart [(1, 1)] (Some "DONE"%string));
                 (quiet, cart [(3, 1)] (Some "TEN"%string));
                 (quiet, cart [(3, 2)] (Some "DONE"%string))]).
Proof.
  apply serve_within_max.
  - apply (bool_decide_unpack _). vm_compute. reflexivity.
  - exact canteen_within_max.
Defined.

(** ** The extension test *)

Lemma after_last_dot_no_dot s : has_dot s = false → after_last_dot s = None.
Proof.
  induction s as [|c s IH]; simpl; [done|].
  intros H. apply orb_false_iff in H as [Hc Hs]. by rewrite IH, Hc.
Qed.

Lemma after_last_dot_app base ext :
  has_dot ext = false →
  after_last_dot (base ++ String dot ext) = Some ext.
Proof.
  intros Hext. induction base as [|c base IH]; simpl.
  - by rewrite after_last_dot_no_dot.
  - by rewrite IH.
Qed.

Lemma has_dot_app base ext : has_dot (base ++ String dot ext) = true.
Proof.
  induction base as [|c base IH]; simpl; [done|]. by rewrite IH, orb_true_r.
Qed.

Lemma after_last_dot_split s ext :
  after_last_dot s = Some ext →
  ∃ base, s = (base ++ String dot ext)%string ∧ has_dot ext = false.
Proof.
  revert ext. induction s as [|c s IH]; intros ext H; simpl in H; [discriminate|].
  destruct (after_last_dot s) as [e|] eqn:E.
  - injection H as ->. destruct (IH ext eq_refl) as (base & -> & Hno).
    by exists (String c base).
  - destruct (Ascii.eqb_spec c dot) as [->|]; [|discriminate].
    injection H as ->. exists EmptyString. split; [done|].
    destruct (has_dot ext) eqn:Hd; [|done].
    assert (Hsome : ∀ t, has_dot t = true → after_last_dot t ≠ None).
    { clear. induction t as [|c t IH]; simpl; [done|].
      intros H. destruct (after_last_dot t); [done|].
      destruct (Ascii.eqb c dot); [done|]. simpl in H. by apply IH in H. }
    by apply Hsome in Hd.
Qed.

(** X7. [allowed_file] accepts a file name exactly when the name splits as
    [base.ext] where [ext] has no dot (so it is what follows the last dot)
    and the lower-cased [ext] is png, jpg, jpeg or gif. Only the last
    extension counts: the base name is free, and may itself contain dots
    or be empty. *)
Theorem allowed_file_iff filename :
  allowed_file filename = true ↔
  ∃ base ext, filename = (base ++ String dot ext)%string ∧
              has_dot ext = false ∧ lower ext ∈ ALLOWED_EXTENSIONS.
Proof.
  unfold allowed_file. split.
  - intros H. apply andb_true_iff in H as [_ H].
    destruct (after_last_dot filename) as [ext|] eqn:E; [|done].
    apply bool_decide_eq_true in H.
    apply after_last_dot_split in E as (base & -> & Hno). by exists base, ext.
  - intros (base & ext & -> & Hno & Hin).
    rewrite has_dot_app, after_last_dot_app by done.
    by apply bool_decide_eq_true.
Qed.

(** X8. A file name without a dot, or whose last dot is followed by
    nothing, is never accepted. *)
Theorem allowed_file_needs_extension filename :
  has_dot filename = false ∨ after_last_dot filename = Some EmptyString →
  allowed_file filename = false.
Proof.
  unfold allowed_file. intros [H|H].
  - by rewrite H.
  - rewrite H. apply andb_false_iff. right.
    apply bool_decide_eq_false. unfold ALLOWED_EXTENSIONS.
    intros Hin. repeat (apply elem_of_cons in Hin as [Hin|Hin]; [discriminate|]).
    by apply elem_of_nil in Hin.
Qed.

Lemma allowed_file_needs_extension_witness :
  allowed_file "archive." = false.
Proof.
  apply allowed_file_needs_extension. right. reflexivity.
Defined.

(** X9. The verdict depends only on the lower-cased last extension: two file
    names whose last extensions are equal up to the case of the letters A to
    Z get the same answer, whatever their base names. *)
Theorem allowed_file_ignores_case_and_base base1 base2 ext1 ext2 :
  has_dot ext1 = false → has_dot ext2 = false →
  lower ext1 = lower ext2 →
  allowed_file (base1 ++ String dot ext1) = allowed_file (base2 ++ String dot ext2).
Proof.
  intros H1 H2 Hl. unfold allowed_file.
  rewrite !has_dot_app, !after_last_dot_app by done. by rewrite Hl.
Qed.

Lemma allowed_file_ignores_case_and_base_witness :
  allowed_file ("menu.v2" ++ String dot "PnG") = allowed_file ("x" ++ String dot "png").
Proof.
  apply allowed_file_ignores_case_and_base; reflexivity.
Defined.

Example allowed_file_samples :
  allowed_file "thali.JPEG" = true ∧ allowed_file "shell.php.png" = true ∧
  allowed_file "photo.png.exe" = false ∧ allowed_file "png" = false ∧
  allowed_file ".gif" = true.
Proof. repeat split; vm_compute; reflexivity. Qed.

(** ** Order status *)

Lemma update_status_rows_step new_status order_id os :
  new_status ∈ valid_statuses →
  Forall2 (fun o o' =>
             same_but_status o o' ∧
             (o_status o' = o_status o ∨
              (o_id o = order_id ∧ o_status o' = new_status ∧
               o_status o' ∈ valid_statuses)))
          os (update_status_rows new_status order_id os).
Proof.
  intros Hv. unfold update_status_rows.
  induction os as [|o os IH]; simpl; constructor; [|done].
  destruct (Z.eqb_spec (o_id o) order_id) as [Heq|Hne].
  - split; [by repeat split|]. right. by repeat split.
  - split; [by repeat split|]. by left.
Qed.

Lemma update_order_status_cases srv db order_id status :
  (snd (update_order_status srv db order_id status) = db ∧
   ∀ s, fst (update_order_status srv db order_id status) ≠ StatusUpdated order_id s)
  ∨ ∃ new_status,
      status = Some new_status ∧ new_status ∈ valid_statuses ∧
      snd (update_order_status srv db order_id status)
      = with_orders (update_status_rows new_status order_id (orders db)) db ∧
      (fst (update_order_status srv db order_id status) = OrderNotFound ∨
       fst (update_order_status srv db order_id status)
       = StatusUpdated order_id new_status).
Proof.
  unfold update_order_status.
  destruct status as [new_status|]; [|by left].
  destruct (negb (truthy_str (Some new_status))); simpl; [by left|].
  destruct (bool_decide (new_status ∈ valid_statuses)) eqn:Hv; simpl; [|by left].
  apply bool_decide_eq_true in Hv.
  destruct (srv_connect_ok srv); simpl; [|by left].
  destruct (srv_execute_raises srv); [by left|].
  destruct (srv_commit_raises srv); [by left|].
  right. exists new_status. split; [done|]. split; [done|].
  destruct (Nat.eqb _ 0); simpl; (split; [done|]); [by left | by right].
Qed.

(** X10. [update_order_status] changes nothing but the status column of the
    orders with the given id: the catalog, the coupons and the order lines
    are as before, the order headers are the same rows in the same places
    with the same requester, amounts and coupon code, and a header whose
    status differs from before has the given id and carries the submitted
    status, which is one of the five valid statuses. *)
Theorem status_update_changes_status_only srv db order_id status :
  menu_items (snd (update_order_status srv db order_id status)) = menu_items db ∧
  coupons (snd (update_order_status srv db order_id status)) = coupons db ∧
  order_items (snd (update_order_status srv db order_id status)) = order_items db ∧
  Forall2 (fun o o' =>
             same_but_status o o' ∧
             (o_status o' = o_status o ∨
              (o_id o = order_id ∧ status = Some (o_status o') ∧
               o_status o' ∈ valid_statuses)))
          (orders db)
          (orders (snd (update_order_status srv db order_id status))).
Proof.
  destruct (update_order_status_cases srv db order_id status)
    as [[-> _]|(new_status & -> & Hv & -> & _)].
  - repeat (split; [done|]).
    induction (orders db); constructor; [|done].
    split; [by repeat split | by left].
  - repeat (split; [done|]). cbn.
    eapply Forall2_impl; [by apply update_status_rows_step|].
    intros o o' [Hsame [Hs|(Hid & Hs & Hin)]]; (split; [done|]); [by left|].
    right. by rewrite Hs.
Qed.

(** X11. The status request is refused as invalid exactly when the body has
    no status or a status that is not, letter for letter, one of Pending,
    Preparing, Ready for Pickup, Completed, Cancelled; a refused request
    changes nothing, whatever the state of the database. *)
Theorem invalid_status_iff srv db order_id status :
  (fst (update_order_status srv db order_id status) = InvalidStatus ↔
   ¬ ∃ s, status = Some s ∧ s ∈ valid_statuses) ∧
  (fst (update_order_status srv db order_id status) = InvalidStatus →
   snd (update_order_status srv db order_id status) = db).
Proof.
  unfold update_order_status.
  destruct status as [new_status|].
  2:{ split; [|done]. split; [|done]. by intros _ (s & ? & _). }
  destruct (decide (new_status ∈ valid_statuses)) as [Hin|Hnot].
  - assert (Ht : truthy_str (Some new_status) = true).
    { destruct new_status; [|done]. exfalso. unfold valid_statuses in Hin.
      repeat (apply elem_of_cons in Hin as [Hin|Hin]; [discriminate|]).
      by apply elem_of_nil in Hin. }
    rewrite Ht, bool_decide_eq_true_2 by done. simpl.
    assert (Hex : ¬ ¬ ∃ s, Some new_status = Some s ∧ s ∈ valid_statuses)
      by (intros Hn; apply Hn; eauto).
    destruct (srv_connect_ok srv); simpl; [|by split; [split|]].
    destruct (srv_execute_raises srv); [by split; [split|]|].
    destruct (srv_commit_raises srv); [by split; [split|]|].
    destruct (Nat.eqb _ 0); simpl; by split; [split|].
  - rewrite (bool_decide_eq_false_2 _ Hnot). simpl. rewrite orb_true_r.
    split; [|done]. split; [|done].
    intros _ (s & [= <-] & Hin). done.
Qed.

Lemma update_status_rows_hit new_status order_id os o' :
  o' ∈ update_status_rows new_status order_id os → o_id o' = order_id →
  o_status o' = new_status.
Proof.
  unfold update_status_rows. intros Hin Hid.
  apply list_elem_of_fmap in Hin as (o & -> & _).
  destruct (Z.eqb_spec (o_id o) order_id) as [_|Hne]; [done|].
  by destruct Hne.
Qed.

Lemma status_rowcount_positive found new_status order_id os :
  status_rowcount found new_status order_id os ≠ 0%nat →
  ∃ o, o ∈ os ∧ o_id o = order_id.
Proof.
  unfold status_rowcount. intros Hn.
  destruct (List.filter _ os) as [|o rest] eqn:E; [done|].
  assert (Hin : In o (List.filter
            (fun o => (o_id o =? order_id) &&
                      (found || negb (String.eqb (o_status o) new_status))) os))
    by (rewrite E; by left).
  apply filter_In in Hin as [Hin Hb]. apply andb_true_iff in Hb as [Hid _].
  exists o. split; [by apply list_elem_of_In | by apply Z.eqb_eq].
Qed.

(** X12. A status update that answers success was addressed to an order that
    exists, and afterwards every order with that id carries the submitted
    status. *)
Theorem status_updated_means_set srv db order_id status id' s :
  fst (update_order_status srv db order_id status) = StatusUpdated id' s →
  id' = order_id ∧ status = Some s ∧ s ∈ valid_statuses ∧
  (∃ o, o ∈ orders db ∧ o_id o = order_id) ∧
  ∀ o', o' ∈ orders (snd (update_order_status srv db order_id status)) →
        o_id o' = order_id → o_status o' = s.
Proof.
  unfold update_order_status.
  destruct status as [new_status|]; [|done].
  destruct (negb (truthy_str (Some new_status))); simpl; [done|].
  destruct (bool_decide (new_status ∈ valid_statuses)) eqn:Hv; simpl; [|done].
  apply bool_decide_eq_true in Hv.
  destruct (srv_connect_ok srv); simpl; [|done].
  destruct (srv_execute_raises srv); [done|].
  destruct (srv_commit_raises srv); [done|].
  destruct (Nat.eqb_spec
              (status_rowcount (srv_found_rows srv) new_status order_id (orders db)) 0)
    as [|Hn]; simpl; [done|].
  intros [= <- <-]. repeat (split; [done|]).
  split; [by eapply status_rowcount_positive|].
  intros o' Hin Hid. by eapply update_status_rows_hit.
Qed.

Lemma status_updated_means_set_witness :
  7 = 7 ∧ Some "Preparing"%string = Some "Preparing"%string ∧
  "Preparing"%string ∈ valid_statuses ∧
  (∃ o, o ∈ orders canteen_after_lunch ∧ o_id o = 7) ∧
  ∀ o', o' ∈ orders (snd (update_order_status calm canteen_after_lunch 7
                            (Some "Preparing"%string))) →
        o_id o' = 7 → o_status o' = "Preparing"%string.
Proof.
  apply (status_updated_means_set calm canteen_after_lunch 7
           (Some "Preparing"%string) 7 "Preparing").
  vm_compute. reflexivity.
Defined.

Lemma set_status_same s o : o_status o = s → set_status s o = o.
Proof. intros <-. by destruct o. Qed.

Lemma status_rowcount_zero found new_status order_id os :
  status_rowcount found new_status order_id os = 0%nat ↔
  ∀ o, o ∈ os → o_id o = order_id → found = false ∧ o_status o = new_status.
Proof.
  unfold status_rowcount. induction os as [|o os IH]; simpl.
  - split; [|done]. intros _ o Hin. by apply elem_of_nil in Hin.
  - destruct (Z.eqb_spec (o_id o) order_id) as [Hid|Hne]; simpl.
    + destruct found; simpl.
      * split; [done|]. intros H.
        by destruct (H o (list_elem_of_here _ _) Hid).
      * destruct (String.eqb_spec (o_status o) new_status) as [Hs|Hs]; simpl.
        -- rewrite IH. split.
           ++ intros H o' Hin. apply elem_of_cons in Hin as [->|Hin]; [done|].
              by apply H.
           ++ intros H o' Hin. apply H. by apply list_elem_of_further.
        -- split; [done|]. intros H.
           by destruct (H o (list_elem_of_here _ _) Hid).
    + rewrite IH. split.
      * intros H o' Hin. apply elem_of_cons in Hin as [->|Hin]; [done|].
        by apply H.
      * intros H o' Hin. apply H. by apply list_elem_of_further.
Qed.

Lemma update_status_rows_same new_status order_id os :
  (∀ o, o ∈ os → o_id o = order_id → o_status o = new_status) →
  update_status_rows new_status order_id os = os.
Proof.
  unfold update_status_rows. induction os as [|o os IH]; intros H; simpl; [done|].
  rewrite IH by (intros o' Hin; apply H; by apply list_elem_of_further).
  destruct (Z.eqb_spec (o_id o) order_id) as [Hid|_]; [|done].
  by rewrite set_status_same by (apply H; [apply list_elem_of_here | done]).
Qed.

(** X13. When the database answers and the submitted status is valid, the
    answer is "Order not found" exactly when no row counts as updated: no
    order has the id, or, with [rowcount] counting changed rows, every order
    with the id already has the submitted status. In that case the tables
    are left as they were. *)
Theorem order_not_found_iff srv db order_id s :
  srv_no_faults srv → s ∈ valid_statuses →
  (fst (update_order_status srv db order_id (Some s)) = OrderNotFound ↔
   ∀ o, o ∈ orders db → o_id o = order_id →
        srv_found_rows srv = false ∧ o_status o = s) ∧
  (fst (update_order_status srv db order_id (Some s)) = OrderNotFound →
   snd (update_order_status srv db order_id (Some s)) = db).
Proof.
  intros (Hc & He & Hm) Hv. unfold update_order_status.
  assert (Ht : truthy_str (Some s) = true).
  { destruct s; [|done]. exfalso. unfold valid_statuses in Hv.
    repeat (apply elem_of_cons in Hv as [Hv|Hv]; [discriminate|]).
    by apply elem_of_nil in Hv. }
  rewrite Ht, bool_decide_eq_true_2, Hc, He, Hm by done. simpl.
  destruct (Nat.eqb_spec
              (status_rowcount (srv_found_rows srv) s order_id (orders db)) 0)
    as [Hz|Hn]; simpl.
  - pose proof (proj1 (status_rowcount_zero _ _ _ _) Hz) as Hall.
    split; [by split|]. intros _.
    rewrite update_status_rows_same by (intros o Hin Hid; by apply Hall).
    by destruct db.
  - split; [|done]. split; [done|]. intros H.
    by apply (proj2 (status_rowcount_zero _ _ _ _)) in H.
Qed.

Lemma order_not_found_iff_witness :
  (fst (update_order_status calm canteen_after_lunch 7 (Some "Pending"%string))
   = OrderNotFound ↔
   ∀ o, o ∈ orders canteen_after_lunch → o_id o = 7 →
        srv_found_rows calm = false ∧ o_status o = "Pending"%string) ∧
  (fst (update_order_status calm canteen_after_lunch 7 (Some "Pending"%string))
   = OrderNotFound →
   snd (update_order_status calm canteen_after_lunch 7 (Some "Pending"%string))
   = canteen_after_lunch).
Proof.
  apply (order_not_found_iff calm canteen_after_lunch 7 "Pending").
  - repeat split.
  - apply list_elem_of_here.
Defined.

(** Re-sending the status an order already has is answered 404 when
    [rowcount] counts changed rows. *)
Example same_status_again_is_not_found :
  fst (update_order_status calm canteen_after_lunch 7 (Some "Pending"%string))
  = OrderNotFound.
Proof. vm_compute. reflexivity. Qed.

(** ** Deleting a coupon *)

Lemma delete_coupon_rows_none coupon_id cs :
  (length cs - length (delete_coupon_rows coupon_id cs) = 0)%nat →
  delete_coupon_rows coupon_id cs = cs ∧ ∀ c, c ∈ cs → c_id c ≠ coupon_id.
Proof.
  unfold delete_coupon_rows. induction cs as [|c cs IH]; simpl; intros H.
  - split; [done|]. intros c Hin. by apply elem_of_nil in Hin.
  - pose proof (filter_length_le (fun c => negb (c_id c =? coupon_id)) cs) as Hle.
    destruct (Z.eqb_spec (c_id c) coupon_id) as [Hid|Hne]; simpl in H |- *.
    + lia.
    + destruct IH as [-> Hall]; [lia|]. split; [done|].
      intros c' Hin. apply elem_of_cons in Hin as [->|Hin]; [done | by apply Hall].
Qed.

Lemma delete_coupon_rows_some coupon_id cs :
  (length cs - length (delete_coupon_rows coupon_id cs) ≠ 0)%nat →
  ∃ c, c ∈ cs ∧ c_id c = coupon_id.
Proof.
  unfold delete_coupon_rows. induction cs as [|c cs IH]; simpl; intros H; [done|].
  destruct (Z.eqb_spec (c_id c) coupon_id) as [Hid|Hne]; simpl in H.
  - exists c. split; [apply list_elem_of_here | done].
  - destruct IH as (c' & Hin & Hid); [lia|].
    exists c'. split; [by apply list_elem_of_further | done].
Qed.

Lemma delete_coupon_rows_elem coupon_id cs c :
  c ∈ delete_coupon_rows coupon_id cs ↔ c ∈ cs ∧ c_id c ≠ coupon_id.
Proof.
  unfold delete_coupon_rows. rewrite !list_elem_of_In, filter_In.
  rewrite negb_true_iff, Z.eqb_neq. done.
Qed.

Lemma delete_coupon_cases srv db coupon_id :
  orders (snd (delete_coupon srv db coupon_id)) = orders db ∧
  order_items (snd (delete_coupon srv db coupon_id)) = order_items db ∧
  (fst (delete_coupon srv db coupon_id) = CouponDeleted →
   ∀ c, c ∈ coupons (snd (delete_coupon srv db coupon_id)) ↔
        c ∈ coupons db ∧ c_id c ≠ coupon_id).
Proof.
  unfold delete_coupon.
  destruct (srv_connect_ok srv); simpl; [|done].
  destruct (srv_execute_raises srv); [done|].
  destruct (srv_commit_raises srv); [done|].
  destruct (Nat.eqb _ 0); simpl; (split; [done|]); (split; [done|]); [done|].
  intros _ c. apply delete_coupon_rows_elem.
Qed.

(** X14. [delete_coupon] leaves the catalog, the order headers and the order
    lines as they are, so past orders keep the coupon code recorded on
    them. When it answers success, a coupon with the id existed and the
    coupons afterwards are exactly those of before with another id; when it
    answers anything else, all tables are as before. *)
Theorem delete_coupon_effect srv db coupon_id :
  menu_items (snd (delete_coupon srv db coupon_id)) = menu_items db ∧
  orders (snd (delete_coupon srv db coupon_id)) = orders db ∧
  order_items (snd (delete_coupon srv db coupon_id)) = order_items db ∧
  (fst (delete_coupon srv db coupon_id) = CouponDeleted →
   (∃ c, c ∈ coupons db ∧ c_id c = coupon_id) ∧
   ∀ c, c ∈ coupons (snd (delete_coupon srv db coupon_id)) ↔
        c ∈ coupons db ∧ c_id c ≠ coupon_id) ∧
  (fst (delete_coupon srv db coupon_id) ≠ CouponDeleted →
   snd (delete_coupon srv db coupon_id) = db).
Proof.
  unfold delete_coupon.
  destruct (srv_connect_ok srv); simpl; [|done].
  destruct (srv_execute_raises srv); [done|].
  destruct (srv_commit_raises srv); [done|].
  destruct (Nat.eqb_spec
              (length (coupons db) - length (delete_coupon_rows coupon_id (coupons db))) 0)
    as [Hz|Hn]; simpl.
  - split; [done|]. split; [done|]. split; [done|]. split; [done|]. intros _.
    apply delete_coupon_rows_none in Hz as [-> _]. by destruct db.
  - split; [done|]. split; [done|]. split; [done|]. split; [|done]. intros _.
    split; [by apply delete_coupon_rows_some|].
    intros c. apply delete_coupon_rows_elem.
Qed.

Lemma same_code_same_row (cs : list Coupon) c1 c2 :
  NoDup (map c_code cs) → c1 ∈ cs → c2 ∈ cs → c_code c1 = c_code c2 → c1 = c2.
Proof.
  induction cs as [|x cs IH]; intros Hnd H1 H2 Hid; [by apply elem_of_nil in H1|].
  simpl in Hnd. apply NoDup_cons in Hnd as [Hx Hnd].
  apply elem_of_cons in H1 as [->|H1]; apply elem_of_cons in H2 as [->|H2].
  - done.
  - exfalso. apply Hx. rewrite Hid. apply list_elem_of_fmap. by exists c2.
  - exfalso. apply Hx. rewrite <- Hid. apply list_elem_of_fmap. by exists c1.
  - by apply IH.
Qed.

(** X15. A deleted coupon no longer discounts. With unique coupon codes,
    once [delete_coupon] has answered success for the coupon [c], an order
    placed with the code of [c] is still accepted, but with discount [0], a
    final amount equal to the subtotal, and no coupon row changed. *)
Theorem deleted_coupon_is_ignored srv env db c db1 req oid db2 :
  NoDup (map c_code (coupons db)) → c ∈ coupons db →
  delete_coupon srv db (c_id c) = (CouponDeleted, db1) →
  coupon_code req = Some (c_code c) →
  place_order env db1 req = (OrderPlaced oid, db2) →
  ∃ o, orders db2 = orders db ++ [o] ∧
       discount_amount o = 0%Q ∧ (final_amount o == total_amount o)%Q ∧
       coupons db2 = coupons db1.
Proof.
  intros Hnd Hin Hdel Hcc Hplace.
  pose proof (delete_coupon_cases srv db (c_id c)) as (Hord & _ & Hok).
  rewrite Hdel in Hord, Hok. simpl in Hord, Hok.
  pose proof (Hok eq_refl) as Hrows.
  apply place_order_cases in Hplace
    as [[? _]|(sid & total & data & _ & _ & _ & ->)]; [done|].
  unfold committed_order.
  destruct (coupon_outcome_unusable (now env) (coupon_code req) total db1)
    as [Happ Hd].
  { intros code c' Hcode Hin' Hc' _. rewrite Hcc in Hcode. injection Hcode as <-.
    apply Hrows in Hin' as [Hin' Hid]. apply Hid.
    by rewrite (same_code_same_row (coupons db) c' c). }
  rewrite Happ. eexists. cbn [tables_after orders coupons]. rewrite Hord.
  split; [reflexivity|].
  unfold order_row; cbn [discount_amount final_amount total_amount].
  rewrite Hd. split; [done|]. split; [ring | done].
Qed.

Lemma deleted_coupon_is_ignored_witness :
  ∃ o, orders (snd (place_order quiet (snd (delete_coupon calm canteen 1)) lunch))
       = orders canteen ++ [o] ∧
       discount_amount o = 0%Q ∧ (final_amount o == total_amount o)%Q ∧
       coupons (snd (place_order quiet (snd (delete_coupon calm canteen 1)) lunch))
       = coupons (snd (delete_coupon calm canteen 1)).
Proof.
  apply (deleted_coupon_is_ignored calm quiet canteen
           {| c_id := 1; c_code := "TEN"; discount_percentage := Some (10 # 1);
              discount_fixed := None; valid_until := None; uses_count := 0;
              max_uses := Some 5; is_active := true |}
           (snd (delete_coupon calm canteen 1)) lunch 7).
  - apply (bool_decide_unpack _). vm_compute. reflexivity.
  - apply list_elem_of_here.
  - vm_compute. reflexivity.
  - reflexivity.
  - vm_compute. reflexivity.
Defined.

(** ** Invariants of the tables under the three handlers *)

Lemma pending_is_valid : Pending ∈ valid_statuses.
Proof. apply list_elem_of_here. Qed.

Lemma place_order_placed_shape env db req :
  snd (place_order env db req) = db
  ∨ ∃ o rows applied,
      snd (place_order env db req) = tables_after db o rows applied ∧
      o_status o = Pending ∧
      final_amount o = (total_amount o - discount_amount o)%Q ∧
      rows ≠ [] ∧ Forall (fun row => oi_order_id row = o_id o) rows.
Proof.
  destruct (place_order env db req) as [r db'] eqn:E. simpl.
  pose proof (place_order_cause _ _ _ _ _ E) as Hcause.
  apply place_order_cases in E
    as [[_ ->]|(sid & total & data & _ & Hv & -> & ->)]; [by left|right].
  unfold committed_order. do 3 eexists. split; [reflexivity|].
  split; [done|]. split; [done|].
  apply validate_items_inr in Hv as (new & Hd & _ & Hall). simpl in Hd. subst data.
  destruct Hcause as (_ & _ & _ & Hne & _). split.
  - destruct Hall; [done | discriminate].
  - apply Forall_forall. intros row Hin.
    by apply list_elem_of_fmap in Hin as (d & -> & _).
Qed.

Lemma step_orders db call :
  (orders (step db call) = orders db ∧ order_items (step db call) = order_items db)
  ∨ (∃ s id, s ∈ valid_statuses ∧
             orders (step db call) = update_status_rows s id (orders db) ∧
             order_items (step db call) = order_items db)
  ∨ (∃ o rows, orders (step db call) = orders db ++ [o] ∧
               order_items (step db call) = order_items db ++ rows ∧
               o_status o = Pending ∧
               final_amount o = (total_amount o - discount_amount o)%Q ∧
               rows ≠ [] ∧ Forall (fun row => oi_order_id row = o_id o) rows).
Proof.
  destruct call as [env req|srv id status|srv id]; simpl.
  - destruct (place_order_placed_shape env db req)
      as [->|(o & rows & applied & -> & ?)]; [by left|].
    right. right. by exists o, rows.
  - destruct (update_order_status_cases srv db id status)
      as [[-> _]|(s & _ & Hv & -> & _)]; [by left|].
    right. left. by exists s, id.
  - left. by destruct (delete_coupon_cases srv db id) as (-> & -> & _).
Qed.

Lemma run_invariant (P : Tables → Prop) :
  (∀ db call, P db → P (step db call)) →
  ∀ calls db, P db → P (run db calls).
Proof.
  intros Hstep calls. unfold run.
  induction calls as [|call calls IH]; intros db HP; simpl; [done|].
  apply IH. by apply Hstep.
Qed.

(** X16. Whatever requests the three handlers serve, one after the other and
    with whatever database faults, every order header keeps a status among
    the five valid ones and keeps
    [final_amount = total_amount - discount_amount], if that held at the
    start. *)
Theorem orders_stay_well_formed db calls :
  statuses_valid db → finals_consistent db →
  statuses_valid (run db calls) ∧ finals_consistent (run db calls).
Proof.
  intros Hs Hf.
  apply (run_invariant (fun t => statuses_valid t ∧ finals_consistent t));
    [|done].
  clear. intros db call [Hs Hf]. unfold statuses_valid, finals_consistent in *.
  destruct (step_orders db call)
    as [[-> _]|[(s & id & Hv & -> & _)|(o & rows & -> & _ & Hp & Hfin & _)]].
  - done.
  - unfold update_status_rows. split.
    + apply Forall_fmap. eapply Forall_impl; [exact Hs|].
      intros o Ho. simpl. by destruct (o_id o =? id).
    + apply Forall_fmap. eapply Forall_impl; [exact Hf|].
      intros o Ho. simpl. by destruct (o_id o =? id).
  - split; apply Forall_app; (split; [done|]); apply Forall_singleton.
    + rewrite Hp. apply pending_is_valid.
    + done.
Qed.

Lemma orders_stay_well_formed_witness :
  statuses_valid (run canteen
                    [PlaceOrder quiet lunch;
                     UpdateOrderStatus calm 7 (Some "Completed"%string);
                     DeleteCoupon calm 1;
                     UpdateOrderStatus calm 7 (Some "Eaten"%string)]) ∧
  finals_consistent (run canteen
                    [PlaceOrder quiet lunch;
                     UpdateOrderStatus calm 7 (Some "Completed"%string);
                     DeleteCoupon calm 1;
                     UpdateOrderStatus calm 7 (Some "Eaten"%string)]).
Proof.
  apply orders_stay_well_formed; apply Forall_nil_2.
Defined.

Lemma update_status_rows_ids s id os :
  map o_id (update_status_rows s id os) = map o_id os.
Proof.
  unfold update_status_rows. induction os as [|o os IH]; simpl; [done|].
  rewrite IH. by destruct (o_id o =? id).
Qed.

Lemma elem_of_ids (os : list Order) i :
  i ∈ map o_id os ↔ ∃ o, o ∈ os ∧ o_id o = i.
Proof.
  rewrite list_elem_of_fmap. split; intros (o & ? & ?); by exists o.
Qed.

(** X17. Under any sequence of requests to the three handlers, every order
    header keeps at least one order line and every order line keeps a
    header, if that held at the start: no handler leaves a header without
    lines or a line without a header. *)
Theorem headers_and_lines_stay_coupled db calls :
  headers_have_lines db → lines_have_headers db →
  headers_have_lines (run db calls) ∧ lines_have_headers (run db calls).
Proof.
  intros Hh Hl.
  apply (run_invariant (fun t => headers_have_lines t ∧ lines_have_headers t));
    [|done].
  clear. intros db call [Hh Hl]. unfold headers_have_lines, lines_have_headers in *.
  destruct (step_orders db call)
    as [[-> ->]|[(s & id & Hv & Hos & ->)|(o & rows & -> & -> & _ & _ & Hne & Hids)]].
  - done.
  - split.
    + intros o' Hin.
      assert (Hid : o_id o' ∈ map o_id (orders (step db call))).
      { apply elem_of_ids. by exists o'. }
      rewrite Hos, update_status_rows_ids in Hid.
      apply elem_of_ids in Hid as (o & Ho & Heq). rewrite <- Heq. by apply Hh.
    + intros row Hin. destruct (Hl row Hin) as (o & Ho & Heq).
      assert (Hid : o_id o ∈ map o_id (orders (step db call))).
      { rewrite Hos, update_status_rows_ids. apply elem_of_ids. by exists o. }
      apply elem_of_ids in Hid as (o' & Ho' & Heq'). exists o'. split; [done|].
      by rewrite Heq'.
  - split.
    + intros o' Hin. apply elem_of_app in Hin as [Hin|Hin].
      * destruct (Hh o' Hin) as (row & Hrow & Heq). exists row.
        split; [apply elem_of_app; by left | done].
      * apply list_elem_of_singleton in Hin as ->.
        destruct rows as [|row rows]; [done|]. exists row.
        split; [apply elem_of_app; right; apply list_elem_of_here|].
        by apply Forall_cons in Hids as [? _].
    + intros row Hin. apply elem_of_app in Hin as [Hin|Hin].
      * destruct (Hl row Hin) as (o' & Ho' & Heq). exists o'.
        split; [apply elem_of_app; by left | done].
      * exists o. split; [apply elem_of_app; right; apply list_elem_of_here|].
        rewrite Forall_forall in Hids. symmetry. by apply Hids.
Qed.

Lemma headers_and_lines_stay_coupled_witness :
  headers_have_lines (run canteen
                        [PlaceOrder quiet lunch;
                         UpdateOrderStatus calm 7 (Some "Ready for Pickup"%string);
                         PlaceOrder quiet (cart [(99, 1)] None)]) ∧
  lines_have_headers (run canteen
                        [PlaceOrder quiet lunch;
                         UpdateOrderStatus calm 7 (Some "Ready for Pickup"%string);
                         PlaceOrder quiet (cart [(99, 1)] None)]).
Proof.
  apply headers_and_lines_stay_coupled.
  - intros o Hin. by apply elem_of_nil in Hin.
  - intros row Hin. by apply elem_of_nil in Hin.
Defined.

(** X18. History is kept. After any sequence of requests to the three
    handlers, the order headers of before are still the first headers, in
    place, with the same id, requester, amounts and coupon code (only the
    status may differ), and the order lines of before are still the first
    order lines, unaltered. *)
Theorem history_is_kept db calls :
  (∃ news, Forall2 same_but_status (orders db)
             (take (length (orders db)) (orders (run db calls))) ∧
           length (orders (run db calls)) = (length (orders db) + news)%nat) ∧
  order_items db `prefix_of` order_items (run db calls).
Proof.
  unfold run. revert db.
  induction calls as [|call calls IH]; intros db; simpl.
  - split; [|done]. exists 0%nat. rewrite firstn_all, Nat.add_0_r. split; [|done].
    induction (orders db); constructor; [by repeat split | done].
  - destruct (IH (step db call)) as [(news & Hall & Hlen) Hpre].
    assert (Hstep : (∃ n, Forall2 same_but_status (orders db)
                            (take (length (orders db)) (orders (step db call))) ∧
                          length (orders (step db call)) = (length (orders db) + n)%nat) ∧
                    order_items db `prefix_of` order_items (step db call)).
    { destruct (step_orders db call)
        as [[-> ->]|[(s & id & Hv & -> & ->)|(o & rows & -> & -> & _)]].
      - split; [|done]. exists 0%nat. rewrite firstn_all, Nat.add_0_r.
        split; [|done].
        induction (orders db); constructor; [by repeat split | done].
      - split; [|done]. exists 0%nat.
        unfold update_status_rows. rewrite length_map, Nat.add_0_r.
        rewrite <- (length_map (fun o => if o_id o =? id then set_status s o else o)
                      (orders db)) at 1.
        rewrite firstn_all. split; [|done].
        induction (orders db) as [|o os IHo]; simpl; constructor; [|done].
        destruct (o_id o =? id); by repeat split.
      - split; [|by apply prefix_app_r]. exists 1%nat.
        rewrite take_app_length, length_app. split; [|done].
        induction (orders db); constructor; [by repeat split | done]. }
    destruct Hstep as [(n & Hall1 & Hlen1) Hpre1].
    split; [|by etrans].
    exists (n + news)%nat. split; [|lia].
    assert (Htake : take (length (orders db)) (orders (fold_left step calls (step db call)))
                    = take (length (orders db))
                        (take (length (orders (step db call)))
                           (orders (fold_left step calls (step db call))))).
    { rewrite take_take. f_equal. lia. }
    rewrite Htake.
    assert (Hlen2 : length (orders db) = length (take (length (orders db))
                                               (orders (step db call)))).
    { rewrite length_take. lia. }
    pose proof (Forall2_take _ _ _ (length (orders db)) Hall) as Hall2.
    eapply Forall2_trans; [|exact Hall1|exact Hall2].
    intros o1 o2 o3 (?&?&?&?&?&?) (?&?&?&?&?&?). repeat split; congruence.
Qed.

(** ** The order list *)

Lemma select_orders_elem users db student_id v :
  v ∈ select_orders users db student_id →
  ∃ o u, o ∈ orders db ∧ u ∈ users ∧ u_id u = o_student_id o ∧
         (∀ s, student_id = Some s → o_student_id o = s) ∧
         ov_id v = o_id o ∧ ov_student_id v = o_student_id o ∧
         ov_student_username v = u_username u ∧
         ov_total_amount v = total_amount o ∧ ov_status v = o_status o ∧
         ov_coupon_code v = o_coupon_code o ∧
         ov_discount_amount v = discount_amount o ∧
         ov_final_amount v = final_amount o ∧
         ov_items v = select_order_items db (o_id o).
Proof.
  unfold select_orders. intros Hin.
  apply list_elem_of_In, in_flat_map in Hin as (o & Ho & Hv).
  destruct (match student_id with Some s => o_student_id o =? s | None => true end)
    eqn:Hkeep; [|done].
  apply in_map_iff in Hv as (u & <- & Hu).
  apply filter_In in Hu as [Hu Hid]. apply Z.eqb_eq in Hid.
  exists o, u. split; [by apply list_elem_of_In|].
  split; [by apply list_elem_of_In|]. split; [done|].
  split; [|by repeat split].
  intros s ->. by apply Z.eqb_eq.
Qed.

(** X19. The order list shows a student only their own orders: through the
    frontend call with a user id other than zero, every listed order has
    that requester id, is an order of the table with the amounts, status
    and coupon code recorded on it, and belongs to a user of [users];
    orders whose requester has no [users] row are not listed. *)
Theorem order_list_is_filtered srv users db sid views :
  sid ≠ 0 →
  get_orders srv users db (get_orders_api_params (Some sid)) = Some views →
  ∀ v, v ∈ views →
    ov_student_id v = sid ∧
    (∃ u, u ∈ users ∧ u_id u = sid ∧ ov_student_username v = u_username u) ∧
    ∃ o, o ∈ orders db ∧ o_id o = ov_id v ∧ o_student_id o = sid ∧
         total_amount o = ov_total_amount v ∧
         discount_amount o = ov_discount_amount v ∧
         final_amount o = ov_final_amount v ∧
         o_status o = ov_status v ∧ o_coupon_code o = ov_coupon_code v.
Proof.
  intros Hnz Hget v Hin. unfold get_orders, get_orders_api_params in Hget.
  simpl in Hget. destruct (Z.eqb_spec sid 0) as [?|_]; [done|]. simpl in Hget.
  destruct (negb (srv_connect_ok srv)); [done|].
  destruct (srv_execute_raises srv); [done|].
  injection Hget as <-.
  apply select_orders_elem in Hin
    as (o & u & Ho & Hu & Hid & Hs & H1 & H2 & H3 & H4 & H5 & H6 & H7 & H8 & _).
  specialize (Hs sid eq_refl).
  split; [congruence|]. split.
  - exists u. repeat split; [done | congruence | done].
  - exists o. repeat split; congruence.
Qed.

Lemma order_list_is_filtered_witness :
  Forall (fun v =>
            ov_student_id v = 3 ∧
            (∃ u, u ∈ [student] ∧ u_id u = 3 ∧ ov_student_username v = u_username u) ∧
            ∃ o, o ∈ orders canteen_after_lunch ∧ o_id o = ov_id v ∧
                 o_student_id o = 3 ∧
                 total_amount o = ov_total_amount v ∧
                 discount_amount o = ov_discount_amount v ∧
                 final_amount o = ov_final_amount v ∧
                 o_status o = ov_status v ∧ o_coupon_code o = ov_coupon_code v)
         (select_orders [student] canteen_after_lunch (Some 3)).
Proof.
  apply Forall_forall.
  apply (order_list_is_filtered calm [student] canteen_after_lunch 3).
  - lia.
  - reflexivity.
Defined.

Lemma joined_names_ext (ms1 ms2 : list MenuItem) (oi : OrderItem) :
  map (fun mi => (mi_id mi, mi_name mi)) ms1
  = map (fun mi => (mi_id mi, mi_name mi)) ms2 →
  map (fun mi => {| v_quantity := oi_quantity oi;
                    v_price_at_order := price_at_order oi;
                    v_item_name := mi_name mi |})
      (List.filter (fun mi => mi_id mi =? oi_menu_item_id oi) ms1)
  = map (fun mi => {| v_quantity := oi_quantity oi;
                      v_price_at_order := price_at_order oi;
                      v_item_name := mi_name mi |})
        (List.filter (fun mi => mi_id mi =? oi_menu_item_id oi) ms2).
Proof.
  revert ms2. induction ms1 as [|m1 ms1 IH]; intros [|m2 ms2] Hm;
    simpl in Hm; try discriminate Hm; [done|].
  injection Hm as Hid Hname Hrest. simpl. rewrite Hid.
  destruct (mi_id m2 =? oi_menu_item_id oi); simpl.
  - rewrite Hname. f_equal. by apply IH.
  - by apply IH.
Qed.

Lemma select_order_items_ext db1 db2 order_id :
  order_items db1 = order_items db2 →
  map (fun mi => (mi_id mi, mi_name mi)) (menu_items db1)
  = map (fun mi => (mi_id mi, mi_name mi)) (menu_items db2) →
  select_order_items db1 order_id = select_order_items db2 order_id.
Proof.
  intros Hoi Hm. unfold select_order_items. rewrite Hoi. clear Hoi.
  induction (order_items db2) as [|oi ois IH]; simpl; [done|].
  rewrite IH. f_equal.
  destruct (oi_order_id oi =? order_id); [|done].
  by apply joined_names_ext.
Qed.

(** X20. The order list reads prices from the order lines, never from the
    catalog: two states of the tables with the same order headers and order
    lines, and catalogs that agree on the ids and names of their rows, give
    the same list. So a later change of a catalog price or availability
    does not alter what past orders show. *)
Theorem order_list_ignores_catalog_prices srv users db1 db2 student_id :
  orders db1 = orders db2 → order_items db1 = order_items db2 →
  map (fun mi => (mi_id mi, mi_name mi)) (menu_items db1)
  = map (fun mi => (mi_id mi, mi_name mi)) (menu_items db2) →
  get_orders srv users db1 student_id = get_orders srv users db2 student_id.
Proof.
  intros Ho Hoi Hm. unfold get_orders.
  destruct (negb (srv_connect_ok srv)); [done|].
  destruct (srv_execute_raises srv); [done|].
  f_equal. unfold select_orders. rewrite Ho. clear Ho.
  induction (orders db2) as [|o os IH]; simpl; [done|].
  rewrite IH. f_equal.
  destruct (match student_id with Some s => o_student_id o =? s | None => true end);
    [|done].
  apply map_ext. intros u. f_equal. by apply select_order_items_ext.
Qed.

Lemma order_list_ignores_catalog_prices_witness :
  get_orders calm [student] canteen_after_lunch (Some 3)
  = get_orders calm [student] canteen_after_price_rise (Some 3).
Proof.
  apply order_list_ignores_catalog_prices; reflexivity.
Defined.

Lemma filter_unique_id (ms : list MenuItem) mi :
  NoDup (map mi_id ms) → mi ∈ ms →
  List.filter (fun m => mi_id m =? mi_id mi) ms = [mi].
Proof.
  induction ms as [|x ms IH]; intros Hnd Hin; [by apply elem_of_nil in Hin|].
  simpl in Hnd. apply NoDup_cons in Hnd as [Hx Hnd]. simpl.
  assert (Hrest : ∀ k, k ∉ map mi_id ms →
                       List.filter (fun m => mi_id m =? k) ms = []).
  { clear. intros k. induction ms as [|y ms IH]; intros Hk; simpl; [done|].
    destruct (Z.eqb_spec (mi_id y) k) as [Heq|_].
    - exfalso. apply Hk. simpl. rewrite Heq. apply list_elem_of_here.
    - apply IH. intros Hin. apply Hk. simpl. by apply list_elem_of_further. }
  apply elem_of_cons in Hin as [->|Hin].
  - rewrite Z.eqb_refl. f_equal. by apply Hrest.
  - destruct (Z.eqb_spec (mi_id x) (mi_id mi)) as [Heq|_]; [|by apply IH].
    exfalso. apply Hx. rewrite Heq. apply list_elem_of_fmap. by exists mi.
Qed.

Lemma select_order_items_old db rows order_id extra :
  (∀ row, row ∈ rows → oi_order_id row ≠ order_id) →
  flat_map
    (fun oi =>
       if oi_order_id oi =? order_id then
         map (fun mi => {| v_quantity := oi_quantity oi;
                           v_price_at_order := price_at_order oi;
                           v_item_name := mi_name mi |})
             (List.filter (fun mi => mi_id mi =? oi_menu_item_id oi) (menu_items db))
       else [])
    (rows ++ extra)
  = flat_map
    (fun oi =>
       if oi_order_id oi =? order_id then
         map (fun mi => {| v_quantity := oi_quantity oi;
                           v_price_at_order := price_at_order oi;
                           v_item_name := mi_name mi |})
             (List.filter (fun mi => mi_id mi =? oi_menu_item_id oi) (menu_items db))
       else [])
    extra.
Proof.
  intros Hold. induction rows as [|row rows IH]; simpl; [done|].
  destruct (Z.eqb_spec (oi_order_id row) order_id) as [Heq|_].
  - exfalso. by apply (Hold row (list_elem_of_here _ _)).
  - apply IH. intros r Hin. apply Hold. by apply list_elem_of_further.
Qed.

Lemma new_lines_shown db req oid its new :
  NoDup (map mi_id (menu_items db)) →
  Forall2 (line_priced (menu_items_db db req)) its new →
  Forall2 (shown_as db) its
    (flat_map
       (fun oi =>
          if oi_order_id oi =? oid then
            map (fun mi => {| v_quantity := oi_quantity oi;
                              v_price_at_order := price_at_order oi;
                              v_item_name := mi_name mi |})
                (List.filter (fun mi => mi_id mi =? oi_menu_item_id oi) (menu_items db))
          else [])
       (map (order_item_row oid) new)).
Proof.
  intros Hnd Hall.
  induction Hall as [|l d its new (Hid & Hq & mi & Hlk & _ & _ & Hp) _ IH];
    simpl; [constructor|].
  rewrite Z.eqb_refl. apply menu_items_db_elem in Hlk as [Hmem Hk].
  rewrite Hid, <- Hk, filter_unique_id by done. simpl.
  constructor; [|done]. split; [done|]. exists mi. by repeat split.
Qed.

(** X21. A placed order shows up in the requester's order list. If the
    catalog ids are unique, the id given to the new order is not the order
    id of an older order line, and the requester has a [users] row, then
    after [place_order] answered success the list of that student contains
    the new order, with status Pending and the requester's user name, and
    its items are, up to their order, one per cart line: the line's
    quantity with the price and the name the catalog had for the item. *)
Theorem placed_order_is_listed env srv users db req sid u oid db' :
  srv_connect_ok srv = true → srv_execute_raises srv = false →
  NoDup (map mi_id (menu_items db)) →
  (∀ row, row ∈ order_items db → oi_order_id row ≠ lastrowid env) →
  u ∈ users → u_id u = sid → student_id req = Some sid →
  place_order env db req = (OrderPlaced oid, db') →
  ∃ views v,
    get_orders srv users db' (Some sid) = Some views ∧ v ∈ views ∧
    ov_id v = oid ∧ ov_status v = Pending ∧
    ov_student_username v = u_username u ∧
    ∃ ivs, ov_items v ≡ₚ ivs ∧ Forall2 (shown_as db) (items req) ivs.
Proof.
  intros Hc He Hnd Hfresh Hu Huid Hsid H.
  apply place_order_cases in H
    as [[? _]|(sid' & total & data & Hsid' & Hv & [= ->] & ->)]; [done|].
  rewrite Hsid in Hsid'. injection Hsid' as <-.
  unfold get_orders. rewrite Hc, He. simpl.
  eexists. eexists. split; [reflexivity|].
  unfold select_orders, committed_order; cbn [tables_after orders].
  set (co := coupon_outcome (now env) (coupon_code req) total db).
  split.
  - apply list_elem_of_In, in_flat_map.
    exists (order_row (lastrowid env) sid total co).
    split; [apply in_or_app; right; by left|].
    cbn [order_row o_student_id]. rewrite Z.eqb_refl.
    apply in_map_iff. exists u. split; [reflexivity|].
    apply filter_In. split; [by apply list_elem_of_In | by apply Z.eqb_eq].
  - cbn [ov_id ov_status ov_student_username ov_items order_row o_id o_status].
    repeat (split; [done|]).
    eexists. split; [reflexivity|].
    unfold select_order_items; cbn [order_items menu_items tables_after].
    rewrite select_order_items_old by done.
    apply validate_items_inr in Hv as (new & Hd & _ & Hall). simpl in Hd. subst data.
    by apply (new_lines_shown db req).
Qed.

Lemma placed_order_is_listed_witness :
  ∃ views v,
    get_orders calm [student] (snd (place_order quiet canteen lunch)) (Some 3)
    = Some views ∧ v ∈ views ∧
    ov_id v = 7 ∧ ov_status v = Pending ∧
    ov_student_username v = u_username student ∧
    ∃ ivs, ov_items v ≡ₚ ivs ∧ Forall2 (shown_as canteen) (items lunch) ivs.
Proof.
  apply (placed_order_is_listed quiet calm [student] canteen lunch 3 student 7).
  - reflexivity.
  - reflexivity.
  - apply (bool_decide_unpack _). vm_compute. reflexivity.
  - intros row Hin. by apply elem_of_nil in Hin.
  - apply list_elem_of_here.
  - reflexivity.
  - reflexivity.
  - vm_compute. reflexivity.
Defined.

(** ** The cart *)

Lemma in_cart_find item_id cart :
  in_cart item_id cart = false →
  List.find (fun kd => fst kd =? item_id) cart = None.
Proof.
  unfold in_cart. induction cart as [|kd cart IH]; simpl; [done|].
  intros H. apply orb_false_iff in H as [Hk Hrest]. rewrite Hk. by apply IH.
Qed.

Lemma in_cart_keys item_id (cart : list (Z * CartEntry)) :
  in_cart item_id cart = true ↔ item_id ∈ map fst cart.
Proof.
  unfold in_cart. induction cart as [|kd cart IH]; simpl.
  - split; [done|]. intros H. by apply elem_of_nil in H.
  - rewrite orb_true_iff, IH, elem_of_cons, Z.eqb_eq. split.
    + intros [<-|H]; [by left | by right].
    + intros [->|H]; [by left | by right].
Qed.

Lemma find_map_keys (f : Z * CartEntry → Z * CartEntry) item_id cart :
  (∀ kd, fst (f kd) = fst kd) →
  List.find (fun kd => fst kd =? item_id) (map f cart)
  = option_map f (List.find (fun kd => fst kd =? item_id) cart).
Proof.
  intros Hf. induction cart as [|kd cart IH]; simpl; [done|].
  rewrite Hf. by destruct (fst kd =? item_id).
Qed.

Lemma find_key kd item_id (cart : list (Z * CartEntry)) :
  List.find (fun kd => fst kd =? item_id) cart = Some kd → fst kd = item_id.
Proof. intros H. apply find_some in H as [_ H]. by apply Z.eqb_eq. Qed.

Lemma find_snoc item_id (cart : list (Z * CartEntry)) kd :
  List.find (fun kd => fst kd =? item_id) (cart ++ [kd])
  = match List.find (fun kd => fst kd =? item_id) cart with
    | Some x => Some x
    | None => if fst kd =? item_id then Some kd else None
    end.
Proof.
  induction cart as [|x cart IH]; simpl; [done|].
  by destruct (fst x =? item_id).
Qed.

Lemma cart_quantity_add cart k item item_id :
  cart_quantity item_id (add_to_cart cart k item)
  = cart_quantity item_id cart + (if k =? item_id then 1 else 0).
Proof.
  unfold add_to_cart, cart_quantity.
  destruct (in_cart k cart) eqn:Hin.
  - rewrite find_map_keys by (intros kd; by destruct (fst kd =? k)).
    destruct (List.find (fun kd => fst kd =? item_id) cart) as [kd|] eqn:Hf; simpl.
    + apply find_key in Hf. rewrite Hf, (Z.eqb_sym item_id k).
      destruct (k =? item_id); simpl; lia.
    + destruct (Z.eqb_spec k item_id) as [->|_]; [|lia].
      apply in_cart_keys, list_elem_of_fmap in Hin as (kd & Hk & Hkd).
      apply list_elem_of_In in Hkd.
      eapply find_none in Hf; [|exact Hkd]. simpl in Hf.
      rewrite <- Hk, Z.eqb_refl in Hf. done.
  - rewrite find_snoc. apply in_cart_find in Hin as Hnone. simpl.
    destruct (List.find (fun kd => fst kd =? item_id) cart) as [kd|] eqn:Hf.
    + apply find_key in Hf as Hk.
      destruct (Z.eqb_spec k item_id) as [->|_]; [|lia].
      by rewrite Hnone in Hf.
    + destruct (k =? item_id); simpl; lia.
Qed.

Lemma add_to_cart_ok cart k item : cart_ok cart → cart_ok (add_to_cart cart k item).
Proof.
  intros [Hnd Hpos]. unfold add_to_cart. destruct (in_cart k cart) eqn:Hin; split.
  - rewrite <- list_fmap_compose.
    erewrite list_fmap_ext; [exact Hnd|].
    intros i kd _. simpl. by destruct (fst kd =? k).
  - apply Forall_fmap. eapply Forall_impl; [exact Hpos|].
    intros kd Hq. simpl in Hq |- *. destruct (fst kd =? k); simpl; lia.
  - rewrite fmap_app. apply NoDup_app. split; [done|]. split.
    + intros x Hx Hx'. simpl in Hx'. apply list_elem_of_singleton in Hx' as ->.
      apply in_cart_keys in Hx. congruence.
    + simpl. apply NoDup_singleton.
  - apply Forall_app. split; [done|]. apply Forall_singleton. simpl. lia.
Qed.

Lemma cart_after_spec clicks : ∀ cart,
  cart_ok cart →
  cart_ok (fold_left (fun cart item => add_to_cart cart (mi_id item) item)
             clicks cart) ∧
  ∀ item_id,
    cart_quantity item_id
      (fold_left (fun cart item => add_to_cart cart (mi_id item) item) clicks cart)
    = cart_quantity item_id cart + clicks_on item_id clicks.
Proof.
  induction clicks as [|item clicks IH]; intros cart Hok; simpl.
  - split; [done|]. intros item_id. unfold clicks_on. simpl. lia.
  - destruct (IH (add_to_cart cart (mi_id item) item)) as [Hok' Hq];
      [by apply add_to_cart_ok|].
    split; [done|]. intros item_id. rewrite Hq, cart_quantity_add.
    unfold clicks_on. simpl. destruct (mi_id item =? item_id); simpl; lia.
Qed.

Lemma cart_quantity_entry (cart : list (Z * CartEntry)) kd :
  NoDup (map fst cart) → kd ∈ cart →
  cart_quantity (fst kd) cart = ce_quantity (snd kd).
Proof.
  unfold cart_quantity.
  induction cart as [|x cart IH]; intros Hnd Hin; [by apply elem_of_nil in Hin|].
  simpl in Hnd. apply NoDup_cons in Hnd as [Hx Hnd]. simpl.
  apply elem_of_cons in Hin as [->|Hin]; [by rewrite Z.eqb_refl|].
  destruct (Z.eqb_spec (fst x) (fst kd)) as [Heq|_]; [|by apply IH].
  exfalso. apply Hx. rewrite Heq. apply list_elem_of_fmap. by exists kd.
Qed.

Lemma cart_after_ok clicks : cart_ok (cart_after clicks).
Proof.
  apply cart_after_spec. split; [apply NoDup_nil_2 | apply Forall_nil_2].
Qed.

Lemma payload_keys cart : map menu_item_id (items_payload cart) = map fst cart.
Proof. unfold items_payload. by rewrite <- list_fmap_compose. Qed.

Lemma cart_counts_clicks_keys clicks item :
  item ∈ clicks →
  mi_id item ∈ map menu_item_id (items_payload (cart_after clicks)).
Proof.
  destruct (cart_after_spec clicks [])
    as [_ Hq]; [split; [apply NoDup_nil_2 | apply Forall_nil_2]|].
  fold (cart_after clicks) in Hq.
  intros Hin. rewrite payload_keys. apply in_cart_keys.
  destruct (in_cart (mi_id item) (cart_after clicks)) eqn:Hic; [done|].
  apply in_cart_find in Hic.
  specialize (Hq (mi_id item)). unfold cart_quantity in Hq at 1.
  rewrite Hic in Hq. unfold cart_quantity in Hq. simpl in Hq.
  assert (1 ≤ clicks_on (mi_id item) clicks); [|lia].
  unfold clicks_on.
  assert (In item (List.filter (fun i => mi_id i =? mi_id item) clicks)).
  { apply filter_In. split; [by apply list_elem_of_In | apply Z.eqb_refl]. }
  destruct (List.filter _ clicks); [done | simpl; lia].
Qed.

(** X22. The cart counts clicks. After any clicks on "Add to Cart", starting
    from the empty cart, the lines sent with an order have pairwise
    different item ids, each line's quantity is the number of clicks on its
    item and is at least 1, and every item clicked has a line. *)
Theorem cart_counts_clicks clicks :
  NoDup (map menu_item_id (items_payload (cart_after clicks))) ∧
  (∀ l, l ∈ items_payload (cart_after clicks) →
        quantity l = clicks_on (menu_item_id l) clicks ∧ 1 ≤ quantity l) ∧
  (∀ item, item ∈ clicks →
           mi_id item ∈ map menu_item_id (items_payload (cart_after clicks))).
Proof.
  destruct (cart_after_ok clicks) as [Hnd Hpos].
  destruct (cart_after_spec clicks [])
    as [_ Hq]; [split; [apply NoDup_nil_2 | apply Forall_nil_2]|].
  fold (cart_after clicks) in Hq.
  split; [by rewrite payload_keys|]. split.
  - intros l Hin. unfold items_payload in Hin.
    apply list_elem_of_fmap in Hin as (kd & -> & Hkd). simpl.
    pose proof (cart_quantity_entry _ _ Hnd Hkd) as Hent.
    rewrite Hq in Hent. unfold cart_quantity in Hent at 1. simpl in Hent.
    split; [lia|]. rewrite Forall_forall in Hpos. by apply Hpos.
  - intros item Hin. by apply cart_counts_clicks_keys.
Qed.

Lemma click_place_order_cases net env db sid cart coupon_text :
  cart ≠ [] →
  let req := place_order_api sid (items_payload cart)
               (if truthy_str (Some coupon_text) then Some coupon_text else None) in
  match net with
  | RequestLost => click_place_order net env db sid cart coupon_text = (cart, db)
  | ResponseLost =>
      click_place_order net env db sid cart coupon_text
      = (cart, snd (place_order env db req))
  | Delivered =>
      click_place_order net env db sid cart coupon_text
      = (match fst (place_order env db req) with
         | OrderPlaced oid => if oid =? 0 then cart else []
         | _ => cart
         end, snd (place_order env db req))
  end.
Proof.
  intros Hne. unfold click_place_order.
  rewrite bool_decide_eq_false_2 by done.
  rewrite bool_decide_eq_false_2 by (destruct cart; [done | discriminate]).
  unfold post_order. destruct net; try done.
  destruct (place_order env db _) as [r db'] eqn:E. simpl.
  destruct r; try done. simpl. by destruct (order_id =? 0).
Qed.

(** X23. An order sent from the cart tab is well formed. For a logged-in
    user with an id other than zero and a cart filled by at least one click,
    whatever the catalog, the coupon text and the state of the database,
    the backend never answers "Missing student ID or items" and never
    answers with the invalid-quantity failure. *)
Theorem cart_order_is_well_formed clicks sid coupon_text env db :
  clicks ≠ [] → sid ≠ 0 →
  fst (place_order env db
         (place_order_api sid (items_payload (cart_after clicks))
            (if truthy_str (Some coupon_text) then Some coupon_text else None)))
  ≠ MissingStudentOrItems ∧
  ∀ id, fst (place_order env db
               (place_order_api sid (items_payload (cart_after clicks))
                  (if truthy_str (Some coupon_text) then Some coupon_text else None)))
        ≠ InvalidQuantity id.
Proof.
  intros Hne Hsid.
  set (req := place_order_api sid (items_payload (cart_after clicks)) _).
  destruct (place_order env db req) as [r db'] eqn:E.
  apply place_order_cause in E. simpl.
  destruct (cart_after_ok clicks) as [_ Hpos].
  split.
  - intros ->. cbn in E. destruct E as [Hid|Hempty].
    + by destruct (Z.eqb_spec sid 0).
    + destruct clicks as [|item clicks]; [done|].
      assert (Hin : mi_id item ∈ map fst (cart_after (item :: clicks))).
      { rewrite <- payload_keys.
        apply (cart_counts_clicks_keys (item :: clicks)). apply list_elem_of_here. }
      rewrite <- payload_keys, Hempty in Hin. by apply elem_of_nil in Hin.
  - intros id ->. cbn in E. destruct E as (l & mi & Hin & _ & _ & _ & Hq).
    unfold items_payload in Hin. apply list_elem_of_fmap in Hin as (kd & -> & Hkd).
    rewrite Forall_forall in Hpos. specialize (Hpos kd Hkd). simpl in Hq, Hpos. lia.
Qed.

Lemma cart_order_is_well_formed_witness :
  fst (place_order quiet canteen
         (place_order_api 3 (items_payload (cart_after three_clicks))
            (if truthy_str (Some "TEN"%string) then Some "TEN"%string else None)))
  ≠ MissingStudentOrItems ∧
  ∀ id, fst (place_order quiet canteen
               (place_order_api 3 (items_payload (cart_after three_clicks))
                  (if truthy_str (Some "TEN"%string) then Some "TEN"%string else None)))
        ≠ InvalidQuantity id.
Proof.
  apply (cart_order_is_well_formed three_clicks 3 "TEN" quiet canteen).
  - discriminate.
  - lia.
Defined.

Lemma placed_lines_of_cart env db sid cart code oid db' :
  place_order env db (place_order_api sid (items_payload cart) code)
  = (OrderPlaced oid, db') →
  ∃ o rows, orders db' = orders db ++ [o] ∧ o_id o = oid ∧
            order_items db' = order_items db ++ rows ∧
            Forall2 (entry_ordered db oid) cart rows.
Proof.
  intros H.
  apply place_order_cases in H
    as [[? _]|(sid' & total & data & _ & Hv & [= ->] & ->)]; [done|].
  do 2 eexists. split; [reflexivity|]. split; [reflexivity|].
  split; [reflexivity|].
  apply validate_items_inr in Hv as (new & Hd & _ & Hall). simpl in Hd. subst data.
  set (req := place_order_api sid (items_payload cart) code) in *.
  pose proof (priced_order_lines db req (lastrowid env) (items req) new
                (fun l H => H) Hall) as Hrows.
  cbn [items req place_order_api] in Hrows. unfold req in Hrows.
  cbn [items place_order_api] in Hrows. unfold items_payload in Hrows.
  apply Forall2_fmap_l in Hrows.
  eapply Forall2_impl; [exact Hrows|].
  intros kd row (Hoid & Hid & Hq & mi & Hmem & Hmid & _ & Hp). simpl in *.
  repeat (split; [done|]). by exists mi.
Qed.

(** X24. The cart is emptied only for a committed order. Whatever happens
    on the network, if a click on "Place Order" leaves the cart empty, the
    tables hold one new order header and, entry by entry, one new order
    line with the entry's item and quantity at the catalog's price (the
    price shown in the cart plays no part). If the answer was delivered,
    the order id is not zero and the cart is not emptied, or if the request
    was lost, then cart and tables are as before. *)
Theorem cart_emptied_means_committed net env db sid cart coupon_text cart' db' :
  cart ≠ [] →
  click_place_order net env db sid cart coupon_text = (cart', db') →
  (cart' = [] →
   ∃ o rows, orders db' = orders db ++ [o] ∧
             order_items db' = order_items db ++ rows ∧
             Forall2 (entry_ordered db (o_id o)) cart rows) ∧
  (cart' ≠ [] →
   net = RequestLost ∨ (net = Delivered ∧ lastrowid env ≠ 0) →
   cart' = cart ∧ db' = db).
Proof.
  intros Hne Hclick.
  pose proof (click_place_order_cases net env db sid cart coupon_text Hne) as Hc.
  simpl in Hc. rewrite Hclick in Hc.
  set (req := place_order_api sid (items_payload cart) _) in Hc.
  destruct net.
  - destruct (place_order env db req) as [r db1] eqn:E. simpl in Hc.
    injection Hc as -> ->. split.
    + intros Hempty. destruct r; try done.
      destruct (order_id =? 0); [done|].
      destruct (placed_lines_of_cart _ _ _ _ _ _ _ E) as (o & rows & ? & <- & ? & ?).
      by exists o, rows.
    + intros Hkept [?|[_ Hnz]]; [done|].
      pose proof (place_order_cases _ _ _ _ _ E)
        as [[Hr ->]|(? & ? & ? & _ & _ & -> & _)].
      * split; [|done]. destruct r; try done.
      * destruct (Z.eqb_spec (lastrowid env) 0); done.
  - injection Hc as -> ->. split; [done|]. by intros _ _.
  - injection Hc as -> ->. split; [done|]. intros _ [?|[? _]]; done.
Qed.

Lemma cart_emptied_means_committed_witness :
  (fst (click_place_order Delivered quiet canteen 3 (cart_after three_clicks) "TEN")
   = [] →
   ∃ o rows,
     orders (snd (click_place_order Delivered quiet canteen 3
                    (cart_after three_clicks) "TEN"))
     = orders canteen ++ [o] ∧
     order_items (snd (click_place_order Delivered quiet canteen 3
                         (cart_after three_clicks) "TEN"))
     = order_items canteen ++ rows ∧
     Forall2 (entry_ordered canteen (o_id o)) (cart_after three_clicks) rows) ∧
  (fst (click_place_order Delivered quiet canteen 3 (cart_after three_clicks) "TEN")
   ≠ [] →
   Delivered = RequestLost ∨ (Delivered = Delivered ∧ lastrowid quiet ≠ 0) →
   fst (click_place_order Delivered quiet canteen 3 (cart_after three_clicks) "TEN")
   = cart_after three_clicks ∧
   snd (click_place_order Delivered quiet canteen 3 (cart_after three_clicks) "TEN")
   = canteen).
Proof.
  apply (cart_emptied_means_committed Delivered quiet canteen 3
           (cart_after three_clicks) "TEN").
  - discriminate.
  - vm_compute. reflexivity.
Defined.

Example click_empties_the_cart :
  fst (click_place_order Delivered quiet canteen 3 (cart_after three_clicks) "TEN")
  = [] ∧
  items_payload (cart_after three_clicks)
  = [ {| menu_item_id := 1; quantity := 2 |}; {| menu_item_id := 3; quantity := 1 |} ].
Proof. split; vm_compute; reflexivity. Qed.



(** ** Registration and login *)

Lemma select_user_none username users :
  fetchone (select_user username users) = None ↔ username ∉ map u_username users.
Proof.
  unfold fetchone, select_user. induction users as [|u users IH]; simpl.
  - split; [|done]. intros _ H. by apply elem_of_nil in H.
  - destruct (String.eqb_spec (u_username u) username) as [Heq|Hne]; simpl.
    + split; [done|]. intros H. exfalso. apply H. rewrite Heq. apply list_elem_of_here.
    + rewrite IH, not_elem_of_cons. split; [by intros H; split | by intros [_ H]].
Qed.

Lemma select_user_snoc username users u :
  fetchone (select_user username users) = None → u_username u = username →
  fetchone (select_user username (users ++ [u])) = Some u.
Proof.
  unfold fetchone, select_user. intros Hnone Hu.
  rewrite List.filter_app. simpl. rewrite Hu, String.eqb_refl.
  destruct (List.filter _ users); [done | discriminate].
Qed.

Lemma register_cases hash srv users data :
  (snd (register hash srv users data) = users ∧
   ∀ id, fst (register hash srv users data) ≠ Registered id)
  ∨ ∃ username password role,
      cr_username data = Some username ∧ cr_password data = Some password ∧
      cr_role data = Some role ∧
      username ≠ EmptyString ∧ password ≠ EmptyString ∧ role ∈ roles ∧
      (username ∉ map u_username users) ∧
      register hash srv users data
      = (Registered (acc_lastrowid srv),
         users ++ [{| u_id := acc_lastrowid srv; u_username := username;
                      u_password_hash := hash password; u_role := role |}]).
Proof.
  unfold register.
  destruct (cr_username data) as [username|]; [|by left].
  destruct (cr_password data) as [password|]; [|by left].
  destruct (cr_role data) as [role|]; [|by left].
  destruct (truthy_str (Some username)) eqn:Hu; cbn [negb orb]; [|by left].
  destruct (truthy_str (Some password)) eqn:Hp; cbn [negb orb]; [|by left].
  destruct (truthy_str (Some role)) eqn:Hr; cbn [negb orb]; [|by left].
  destruct (bool_decide (role ∈ roles)) eqn:Hrole; cbn [negb]; [|by left].
  apply bool_decide_eq_true in Hrole.
  destruct (acc_connect_ok srv); cbn [negb]; [|by left].
  destruct (acc_select_raises srv); [by left|].
  destruct (fetchone (select_user username users)) eqn:Hsel; [by left|].
  destruct (acc_insert_raises srv); [by left|].
  destruct (acc_commit_raises srv); [by left|].
  right. exists username, password, role. repeat (split; [done|]).
  split; [by destruct username|]. split; [by destruct password|].
  split; [done|]. split; [by apply select_user_none | done].
Qed.

(** X26. Register, then log in. If passlib's check accepts the hash it just
    made ([verify_password (hash_password p) p]), then after a registration
    answered success, a login with the same user name and password, on a
    database that answers, succeeds and returns the id given at
    registration and the registered name and role. *)
Theorem register_then_login hash verify srv srv' users data id users' :
  (∀ p, verify (hash p) p = true) →
  acc_connect_ok srv' = true → acc_select_raises srv' = false →
  register hash srv users data = (Registered id, users') →
  ∃ username role,
    cr_username data = Some username ∧ cr_role data = Some role ∧
    login verify srv' users' data = LoggedIn id username role.
Proof.
  intros Hverify Hc Hs Hreg.
  destruct (register_cases hash srv users data)
    as [[_ Hno]|(username & password & role & Hu & Hp & Hr & Hune & Hpne & _ & Hfresh & Heq)].
  { rewrite Hreg in Hno. by destruct (Hno id). }
  rewrite Hreg in Heq. injection Heq as -> ->.
  exists username, role. repeat (split; [done|]).
  unfold login. rewrite Hu, Hp.
  replace (truthy_str (Some username)) with true by (by destruct username).
  replace (truthy_str (Some password)) with true by (by destruct password).
  simpl. rewrite Hc, Hs. simpl.
  rewrite (select_user_snoc username users _);
    [|by apply select_user_none|reflexivity].
  simpl. by rewrite Hverify.
Qed.

Lemma register_then_login_witness :
  ∃ username role,
    cr_username ravi = Some username ∧ cr_role ravi = Some role ∧
    login toy_verify desk (snd (register toy_hash desk [student] ravi)) ravi
    = LoggedIn 11 username role.
Proof.
  apply (register_then_login toy_hash toy_verify desk desk [student] ravi 11).
  - intros p. unfold toy_verify. apply String.eqb_refl.
  - reflexivity.
  - reflexivity.
  - vm_compute. reflexivity.
Defined.

(** X27. Registration keeps the user names unique and the roles within
    student and canteen: if that holds for the table, it holds after any
    registration request. A request for a name already taken, or with a
    missing or empty field, or with another role, leaves the table as it
    is. *)
Theorem registration_keeps_users_ok hash srv users data :
  users_ok users →
  users_ok (snd (register hash srv users data)) ∧
  ((∃ u, u ∈ users ∧ Some (u_username u) = cr_username data) ∨
   truthy_str (cr_username data) = false ∨ truthy_str (cr_password data) = false ∨
   (∀ r, cr_role data = Some r → r ∉ roles) →
   snd (register hash srv users data) = users).
Proof.
  intros [Hnd Hroles].
  destruct (register_cases hash srv users data)
    as [[Hsame _]|(username & password & role & Hu & Hp & Hr & Hune & Hpne & Hrole & Hfresh & Heq)].
  - rewrite Hsame. by split; [split|].
  - rewrite Heq. cbn [snd]. split.
    + split.
      * rewrite fmap_app. apply NoDup_app. split; [done|]. split.
        -- intros x Hx Hx'. simpl in Hx'. apply list_elem_of_singleton in Hx' as ->. done.
        -- simpl. apply NoDup_singleton.
      * apply Forall_app. split; [done|]. by apply Forall_singleton.
    + intros [(u & Hin & Hname)|[Ht|[Ht|Hbad]]]; exfalso.
      * rewrite Hu in Hname. injection Hname as Hname. apply Hfresh.
        rewrite <- Hname. apply list_elem_of_fmap. by exists u.
      * rewrite Hu in Ht. by destruct username.
      * rewrite Hp in Ht. by destruct password.
      * by apply (Hbad role).
Qed.

Lemma registration_keeps_users_ok_witness :
  users_ok (snd (register toy_hash desk [student]
                   {| cr_username := Some "asha"%string; cr_password := Some "pw"%string;
                      cr_role := Some "student"%string |})) ∧
  ((∃ u, u ∈ [student] ∧ Some (u_username u) = Some "asha"%string) ∨
   truthy_str (Some "asha"%string) = false ∨ truthy_str (Some "pw"%string) = false ∨
   (∀ r, Some "student"%string = Some r → r ∉ roles) →
   snd (register toy_hash desk [student]
          {| cr_username := Some "asha"%string; cr_password := Some "pw"%string;
             cr_role := Some "student"%string |}) = [student]).
Proof.
  apply (registration_keeps_users_ok toy_hash desk [student]
           {| cr_username := Some "asha"%string; cr_password := Some "pw"%string;
              cr_role := Some "student"%string |}).
  split.
  - apply (bool_decide_unpack _). vm_compute. reflexivity.
  - apply Forall_singleton. apply list_elem_of_here.
Defined.

